(** * Globus SDK: login clients, flows listings and payload helpers

    A shallow embedding of

    - [globus_sdk/utils.py] ([slash_join], [safe_strseq_iter],
      [render_enums_for_api], [commajoin], [PayloadWrapper] and its optional
      setters),
    - [globus_sdk/services/auth/client/base_login_client.py]
      ([AuthLoginClient]),
    - [globus_sdk/services/auth/client/confidential_client.py]
      ([ConfidentialAppAuthClient]),
    - [globus_sdk/services/flows/client.py] (the three marker-paginated
      listings of [FlowsClient] and [get_run]),

    followed by the properties proved about them.

    Python dictionaries are finite maps from strings to Python values;
    objects that the code shares and mutates (caller-supplied dicts, flow
    managers) live in a store indexed by locations, and every method is a
    computation in a state-and-exception monad over that store, the client
    object and the list of HTTP requests sent so far.  Logging calls have no
    influence on any value computed and are left out. *)

From Stdlib Require Import ZArith NArith String Ascii List DecimalString.
From stdpp Require Import base option gmap strings list fin_maps.

Open Scope string_scope.

(** ** Python values *)

Module py.

(** [uuid.UUID]: the 128-bit integer the object stores. *)
Record UUID := { int : N }.

Definition hex_digit (d : N) : ascii :=
  match d with
  | 0%N => "0" | 1%N => "1" | 2%N => "2" | 3%N => "3"
  | 4%N => "4" | 5%N => "5" | 6%N => "6" | 7%N => "7"
  | 8%N => "8" | 9%N => "9" | 10%N => "a" | 11%N => "b"
  | 12%N => "c" | 13%N => "d" | 14%N => "e" | _ => "f"
  end%char.

(** The [len] lowest hexadecimal digits of [n], most significant first
    (['%032x' % n] for [len = 32] and [n < 2^128]). *)
Fixpoint hex (len : nat) (n : N) : string :=
  match len with
  | O => ""
  | S len' => hex len' (N.shiftr n 4) +:+ String (hex_digit (N.land n 15)) ""
  end.

(** [str(u)] for a UUID: the 32 hex digits grouped 8-4-4-4-12. *)
Definition UUID_str (u : UUID) : string :=
  let h := hex 32 (int u) in
  substring 0 8 h +:+ "-" +:+ substring 8 4 h +:+ "-" +:+
  substring 12 4 h +:+ "-" +:+ substring 16 4 h +:+ "-" +:+
  substring 20 12 h.

(** The objects the code applies [str()] to. *)
Inductive atom :=
| Str (s : string)
| Uuid (u : UUID)
| Int (n : Z)
| Bool (b : bool).

(** The builtin [str()]. *)
Definition str (x : atom) : string :=
  match x with
  | Str s => s
  | Uuid u => UUID_str u
  | Int n => NilZero.string_of_int (Z.to_int n)
  | Bool true => "True"
  | Bool false => "False"
  end.

(** Values stored in dictionaries (request bodies, query parameters). *)
#[local] Unset Elimination Schemes.
Inductive val :=
| VNone
| VBool (b : bool)
| VInt (n : Z)
| VStr (s : string)
| VUuid (u : UUID)
| VList (xs : list val).
#[local] Set Elimination Schemes.

Definition is_None (v : val) : bool :=
  match v with VNone => true | _ => false end.

(** How a typed argument is stored when no conversion is applied. *)
Class AsVal (A : Type) := as_val : A → val.

#[export] Instance atom_as_val : AsVal atom :=
  λ x, match x with
       | Str s => VStr s
       | Uuid u => VUuid u
       | Int n => VInt n
       | Bool b => VBool b
       end.
#[export] Instance bool_as_val : AsVal bool := VBool.
#[export] Instance Z_as_val : AsVal Z := VInt.
#[export] Instance string_as_val : AsVal string := VStr.
#[export] Instance list_as_val `{AsVal A} : AsVal (list A) :=
  λ xs, VList (as_val <$> xs).
(** An optional argument: [None] is Python's [None]. *)
#[export] Instance option_as_val `{AsVal A} : AsVal (option A) :=
  λ o, match o with Some x => as_val x | None => VNone end.

(** [dict[str, Any]] *)
Abbreviation dict := (gmap string val).

(** [d.update(other)]: the entries of [other] win. *)
Definition update (d other : dict) : dict := other ∪ d.

(** Truth value of an optional dict: [None] and [{}] are false. *)
Definition truthy (o : option dict) : bool :=
  match o with
  | Some d => negb (bool_decide (d = ∅))
  | None => false
  end.

(** [",".join(xs)] *)
Definition join (sep : string) (xs : list string) : string :=
  String.concat sep xs.

End py.

Export py.

(** ** [globus_sdk/utils.py] *)

Module utils.

(** [UUIDLike = str | uuid.UUID] *)
Inductive UUIDLike :=
| OfStr (s : string)
| OfUUID (u : UUID).

Definition UUIDLike_atom (x : UUIDLike) : atom :=
  match x with OfStr s => Str s | OfUUID u => Uuid u end.

(** The argument of [safe_strseq_iter] and [commajoin]:
    [Iterable[Any] | str | UUID].  An iterable is given by the list of the
    objects it yields, in iteration order.  Iterating leaves a list, tuple or
    set as it is and uses up a one-shot iterator; what happens to the
    caller's iterable object is not part of this model, which gives the
    strings produced. *)
Inductive strseq :=
| Solitary (x : UUIDLike)
| Iterable (xs : list atom).

#[export] Instance UUIDLike_as_val : AsVal UUIDLike :=
  λ x, as_val (UUIDLike_atom x).
#[export] Instance strseq_as_val : AsVal strseq :=
  λ x, match x with
       | Solitary x => as_val x
       | Iterable xs => as_val xs
       end.

(** The strings the generator [safe_strseq_iter(value)] yields. *)
Definition safe_strseq_iter (value : strseq) : list string :=
  match value with
  | Solitary (OfStr s) => [s]
  | Solitary (OfUUID u) => [str (Uuid u)]
  | Iterable xs => str <$> xs
  end.

(** [isinstance(val, collections.abc.Iterable)] fails for a solitary UUID
    only, which is the one argument that reaches [str(val)]. *)
Definition commajoin (val : strseq) : string :=
  match val with
  | Solitary (OfUUID u) => str (Uuid u)
  | _ => join "," (safe_strseq_iter val)
  end.

(** [PayloadWrapper] is a [UserDict]: the wrapped mapping is its only
    state, and [self[key] = v] stores into it. *)
Abbreviation PayloadWrapper := (gmap string val).

Definition _set_value `{AsVal A} (key : string) (val : option A)
    (callback : option (A → py.val)) (self : PayloadWrapper)
    : PayloadWrapper :=
  match val with
  | Some v =>
      <[key := match callback with Some cb => cb v | None => as_val v end]>
        self
  | None => self
  end.

(** [**kwargs]: the keyword arguments in the order they were written.
    Python rejects a call that repeats a keyword. *)
Abbreviation kwargs A := (list (string * option A)).

(** [for k, v in kwargs.items(): self._set_value(k, v, callback=cb)] *)
Definition set_each `{AsVal A} (cb : A → py.val) (kw : kwargs A)
    (self : PayloadWrapper) : PayloadWrapper :=
  fold_left (λ d kv, _set_value kv.1 kv.2 (Some cb) d) kw self.

Definition str_callback (x : atom) : py.val := VStr (str x).

(** [lambda x: list(safe_strseq_iter(x))] *)
Definition strlist_callback (x : strseq) : py.val :=
  VList (VStr <$> safe_strseq_iter x).

(** The builtin [bool] on a [bool]. *)
Definition bool_callback (b : bool) : py.val := VBool b.

(** Arguments of [int()]: an [int], or a [bool] (a subclass of [int]). *)
Inductive intlike :=
| AnInt (n : Z)
| ABool (b : bool).

#[export] Instance intlike_as_val : AsVal intlike :=
  λ x, match x with AnInt n => VInt n | ABool b => VBool b end.

(** The builtin [int()]. *)
Definition to_int (x : intlike) : Z :=
  match x with
  | AnInt n => n
  | ABool b => Z.b2z b
  end.

Definition int_callback (x : intlike) : py.val := VInt (to_int x).

Definition _set_optstrs (kw : kwargs atom) := set_each str_callback kw.
Definition _set_optstrlists (kw : kwargs strseq) :=
  set_each strlist_callback kw.
Definition _set_optbools (kw : kwargs bool) := set_each bool_callback kw.
Definition _set_optints (kw : kwargs intlike) := set_each int_callback kw.

End utils.

(** ** The store, the network and the monad of method calls *)

Module runtime.

Abbreviation loc := positive.

Inductive http_method := GET | POST.

(** One call of the client's [get] or [post]: the keyword arguments the
    methods below pass. *)
Record request := Request {
  method : http_method;
  path : string;
  query_params : option dict;
  data : option dict;
  encoding : option string
}.

Record raw_response := { status_code : Z; text : string }.

(** Modelled from the spec: the exception classes of [globus_sdk.exc],
    which is not among the sources.  The spec's taxonomy has a usage error
    for local precondition violations, a transport error for network
    failures, an API error carrying the non-2xx response, and a decoding
    error. *)
Inductive exn :=
| GlobusSDKUsageError (msg : string)
| NetworkError (msg : string)
| GlobusAPIError (r : raw_response)
| DecodingError (msg : string).

Inductive error_kind := UsageError | TransportError | APIError | Decoding.

Definition kind_of (e : exn) : error_kind :=
  match e with
  | GlobusSDKUsageError _ => UsageError
  | NetworkError _ => TransportError
  | GlobusAPIError _ => APIError
  | DecodingError _ => Decoding
  end.

(** Modelled from the spec: the transport capability.  Given the requests
    sent before and the request at hand, the remote side answers with a
    response or the call fails with an error. *)
Abbreviation transport := (list request → request → exn + raw_response).

(** The response wrappers; a wrapper class only tags the raw response. *)
Inductive response_class :=
| GlobusHTTPResponse
| OAuthTokenResponse
| OAuthDependentTokenResponse
| IterableFlowsResponse
| IterableRunsResponse
| IterableRunLogsResponse.

Record response := Response { class : response_class; raw : raw_response }.

(** [cls(resp)]: re-wrap a response in another class. *)
Definition wrap (cls : response_class) (r : response) : response :=
  Response cls (raw r).

(** [ScopeCollectionType]: one scope or an iterable of scopes, each given
    by its string form. *)
Inductive ScopeCollectionType :=
| OneScope (s : string)
| ManyScopes (ss : list string).

(** Modelled from the spec: the flow managers of
    [globus_sdk.services.auth.flow_managers], which is not among the
    sources.  A manager holds the owning client's identity, the requested
    scopes, the redirect URI and the [state] token; the native-app variant
    also holds its verifier and challenge. *)
Inductive GlobusOAuthFlowManager :=
| GlobusAuthorizationCodeFlowManager
    (client_id : option string) (redirect_uri : string)
    (requested_scopes : option ScopeCollectionType)
    (state : string) (refresh_tokens : bool)
| GlobusNativeAppFlowManager
    (client_id : option string) (redirect_uri : option string)
    (requested_scopes : option ScopeCollectionType)
    (state : string) (verifier challenge : string) (refresh_tokens : bool).

(** The state a method call runs in: the client object [self], the dicts
    and flow managers allocated so far, and the requests sent so far (oldest
    first). *)
Record world (C : Type) := World {
  this : C;
  dicts : gmap loc dict;
  managers : gmap loc GlobusOAuthFlowManager;
  sent : list request
}.
Arguments World {C}.
Arguments this {C}.
Arguments dicts {C}.
Arguments managers {C}.
Arguments sent {C}.

(** How a call ends.  [Dangling] is not a Python behaviour: the call was
    handed a location with no object in the store. *)
Inductive outcome (A : Type) :=
| Return (a : A)
| Raise (e : exn)
| Dangling.
Arguments Return {A}.
Arguments Raise {A}.
Arguments Dangling {A}.

Definition M (C A : Type) : Type := world C → outcome A * world C.

#[export] Instance M_ret {C} : MRet (M C) := λ A a w, (Return a, w).
#[export] Instance M_bind {C} : MBind (M C) := λ A B f m w,
  match m w with
  | (Return a, w') => f a w'
  | (Raise e, w') => (Raise e, w')
  | (Dangling, w') => (Dangling, w')
  end.

Section primitives.
Context {C : Type}.

Definition raise {A} (e : exn) : M C A := λ w, (Raise e, w).

Definition get_this : M C C := λ w, (Return (this w), w).

Definition set_this (c : C) : M C unit :=
  λ w, (Return (), World c (dicts w) (managers w) (sent w)).

(** A new dict object: [{}] or a dict display. *)
Definition new_dict (d : dict) : M C loc :=
  λ w, let l := fresh (dom (dicts w)) in
       (Return l, World (this w) (<[l := d]> (dicts w)) (managers w) (sent w)).

Definition read_dict (l : loc) : M C dict :=
  λ w, match dicts w !! l with
       | Some d => (Return d, w)
       | None => (Dangling, w)
       end.

(** [d[key] = v] on the dict object at [l]. *)
Definition setitem (l : loc) (key : string) (v : val) : M C unit :=
  λ w, match dicts w !! l with
       | Some d =>
           (Return (),
            World (this w) (<[l := <[key := v]> d]> (dicts w))
                  (managers w) (sent w))
       | None => (Dangling, w)
       end.

Definition new_manager (m : GlobusOAuthFlowManager) : M C loc :=
  λ w, let l := fresh (dom (managers w)) in
       (Return l, World (this w) (dicts w) (<[l := m]> (managers w)) (sent w)).

Definition read_manager (l : loc) : M C GlobusOAuthFlowManager :=
  λ w, match managers w !! l with
       | Some m => (Return m, w)
       | None => (Dangling, w)
       end.

(** [if x is not None: body(x)] *)
Definition when_not_None {A} (x : option A) (body : A → M C unit)
    : M C unit :=
  match x with Some a => body a | None => mret () end.

(** Modelled from the spec: the request methods of [BaseClient], which is
    not among the sources.  The request goes out through the transport;
    its answer comes back wrapped in a [GlobusHTTPResponse], and a
    failure is raised. *)
Definition send (tr : transport) (r : request) : M C response :=
  λ w, let w' := World (this w) (dicts w) (managers w) (sent w ++ [r]) in
       match tr (sent w) r with
       | inr resp => (Return (Response GlobusHTTPResponse resp), w')
       | inl e => (Raise e, w')
       end.

Definition get (tr : transport) (path : string)
    (query_params : option dict) : M C response :=
  send tr (Request GET path query_params None None).

Definition post (tr : transport) (path : string) (data : option dict)
    (encoding : option string) : M C response :=
  send tr (Request POST path None data encoding).

End primitives.

End runtime.

Export runtime.

(** ** [globus_sdk/services/auth/client] *)

Module auth.
Import utils.

(** Modelled from the spec: the authorizers of [globus_sdk.authorizers],
    which is not among the sources.  The "no authorizer" variant is
    distinguishable by its tag from the ones that attach a header. *)
Inductive GlobusAuthorizer :=
| NullAuthorizer
| BasicAuthorizer (username password : string)
| AccessTokenAuthorizer (access_token : string).

Definition isinstance_NullAuthorizer (a : GlobusAuthorizer) : bool :=
  match a with NullAuthorizer => true | _ => false end.

(** Modelled from the spec: [_guards.is_optional], which is not among the
    sources.  The value is absent or of the given class ("no real
    authorizer (null/absent)"). *)
Definition is_optional {A} (value : option A) (isinstance : A → bool)
    : bool :=
  match value with
  | None => true
  | Some v => isinstance v
  end.

(** The attributes of an [AuthLoginClient] the methods below use.
    [current_oauth2_flow_manager] refers to a manager in the store. *)
Record AuthLoginClient := Client {
  authorizer : option GlobusAuthorizer;
  client_id : option string;
  current_oauth2_flow_manager : option loc
}.

(** Truth value of [self.client_id]: [None] and [""] are false. *)
Definition has_client_id (c : AuthLoginClient) : bool :=
  match client_id c with
  | Some s => negb (String.eqb s "")
  | None => false
  end.

Definition AuthLoginClient__init__ (client_id : option UUIDLike)
    (authorizer : option GlobusAuthorizer) : AuthLoginClient :=
  {| authorizer := authorizer;
     client_id := (λ c, str (UUIDLike_atom c)) <$> client_id;
     current_oauth2_flow_manager := None |}.

(** [ConfidentialAppAuthClient] adds no attribute of its own. *)
Definition ConfidentialAppAuthClient__init__ (client_id : UUIDLike)
    (client_secret : string) : AuthLoginClient :=
  AuthLoginClient__init__ (Some client_id)
    (Some (BasicAuthorizer (str (UUIDLike_atom client_id)) client_secret)).

Abbreviation Call A := (M AuthLoginClient A).

(** Modelled from the spec: [stringify_requested_scopes] of
    [globus_sdk.services.auth._common], which is not among the sources.
    Scopes are joined by whitespace; the default is the one the docstrings
    of the callers give. *)
Definition stringify_requested_scopes
    (requested_scopes : option ScopeCollectionType) : string :=
  match requested_scopes with
  | None =>
      "openid profile email urn:globus:auth:scope:transfer.api.globus.org:all"
  | Some (OneScope s) => s
  | Some (ManyScopes ss) => join " " ss
  end.

Section methods.

(** The transport the client sends through. *)
Variable tr : transport.

(** Modelled from the spec: [get_authorize_url] of a flow manager, a pure
    function of the manager's state and the supplied query parameters,
    with no network call and no side effect. *)
Variable manager_get_authorize_url :
  GlobusOAuthFlowManager → dict → string.

(** *** [AuthLoginClient] *)

Definition oauth2_token (form_data : dict) (body_params : option dict)
    (response_class : response_class) : Call response :=
  let data := form_data in
  let data := if truthy body_params
              then update data (default ∅ body_params) else data in
  r ← post tr "/v2/oauth2/token" (Some data) (Some "form");
  mret (wrap response_class r).

(** Modelled from the spec: [exchange_code_for_tokens] of a flow manager,
    one call of the token endpoint with [grant_type=authorization_code],
    the code and, for the native-app variant, the code verifier. *)
Definition manager_exchange_code_for_tokens (m : GlobusOAuthFlowManager)
    (auth_code : string) : Call response :=
  match m with
  | GlobusAuthorizationCodeFlowManager _ _ _ _ _ =>
      oauth2_token
        {[ "grant_type" := VStr "authorization_code";
           "code" := VStr auth_code ]}
        None OAuthTokenResponse
  | GlobusNativeAppFlowManager _ _ _ _ verifier _ _ =>
      oauth2_token
        {[ "grant_type" := VStr "authorization_code";
           "code" := VStr auth_code;
           "code_verifier" := VStr verifier ]}
        None OAuthTokenResponse
  end.

Definition oauth2_get_authorize_url
    (session_required_identities : option strseq)
    (session_required_single_domain : option strseq)
    (session_required_policies : option strseq)
    (prompt : option string)
    (query_params : option loc) : Call string :=
  self ← get_this;
  match current_oauth2_flow_manager self with
  | None =>
      raise (GlobusSDKUsageError
        ("Cannot get authorize URL until starting an OAuth2 flow. " +:+
         "Call the oauth2_start_flow() method on this " +:+
         "AuthClient to resolve"))
  | Some manager =>
      query_params ← match query_params with
                     | None => new_dict ∅
                     | Some l => mret l
                     end;
      when_not_None session_required_identities (λ v,
        setitem query_params "session_required_identities"
                (VStr (commajoin v)));;
      when_not_None session_required_single_domain (λ v,
        setitem query_params "session_required_single_domain"
                (VStr (commajoin v)));;
      when_not_None session_required_policies (λ v,
        setitem query_params "session_required_policies"
                (VStr (commajoin v)));;
      when_not_None prompt (λ v,
        setitem query_params "prompt" (VStr v));;
      m ← read_manager manager;
      qp ← read_dict query_params;
      mret (manager_get_authorize_url m qp)
  end.

Definition oauth2_exchange_code_for_tokens (auth_code : string)
    : Call response :=
  self ← get_this;
  match current_oauth2_flow_manager self with
  | None =>
      raise (GlobusSDKUsageError
        ("Cannot exchange auth code until starting an OAuth2 flow. " +:+
         "Call the oauth2_start_flow() method on this " +:+
         "AuthClient to resolve"))
  | Some manager =>
      m ← read_manager manager;
      manager_exchange_code_for_tokens m auth_code
  end.

Definition oauth2_refresh_token (refresh_token : string)
    (body_params : option dict) : Call response :=
  let form_data : dict :=
    {[ "refresh_token" := VStr refresh_token;
       "grant_type" := VStr "refresh_token" ]} in
  oauth2_token form_data body_params OAuthTokenResponse.

Definition oauth2_validate_token (token : string)
    (body_params : option dict) : Call response :=
  self ← get_this;
  let body : dict := {[ "token" := VStr token ]} in
  let no_authentication :=
    is_optional (authorizer self) isinstance_NullAuthorizer in
  let body := if no_authentication && has_client_id self
              then update body {[ "client_id" := as_val (client_id self) ]}
              else body in
  let body := if truthy body_params
              then update body (default ∅ body_params) else body in
  post tr "/v2/oauth2/token/validate" (Some body) (Some "form").

Definition oauth2_revoke_token (token : string)
    (body_params : option dict) : Call response :=
  self ← get_this;
  let body : dict := {[ "token" := VStr token ]} in
  let no_authentication :=
    match authorizer self with
    | None => true
    | Some a => isinstance_NullAuthorizer a
    end in
  let body := if no_authentication && has_client_id self
              then update body {[ "client_id" := as_val (client_id self) ]}
              else body in
  let body := if truthy body_params
              then update body (default ∅ body_params) else body in
  post tr "/v2/oauth2/token/revoke" (Some body) (Some "form").

Definition oauth2_userinfo : Call response :=
  get tr "/v2/oauth2/userinfo" None.

(** *** [ConfidentialAppAuthClient] *)

Definition oauth2_client_credentials_tokens
    (requested_scopes : option ScopeCollectionType) : Call response :=
  let requested_scopes_string :=
    stringify_requested_scopes requested_scopes in
  oauth2_token
    {[ "grant_type" := VStr "client_credentials";
       "scope" := VStr requested_scopes_string ]}
    None OAuthTokenResponse.

(** The method returns the attribute it has just assigned. *)
Definition oauth2_start_flow (redirect_uri : string)
    (requested_scopes : option ScopeCollectionType)
    (state : string) (refresh_tokens : bool) : Call (option loc) :=
  self ← get_this;
  manager ← new_manager
    (GlobusAuthorizationCodeFlowManager (client_id self) redirect_uri
       requested_scopes state refresh_tokens);
  set_this (Client (authorizer self) (client_id self) (Some manager));;
  self ← get_this;
  mret (current_oauth2_flow_manager self).

Definition oauth2_get_dependent_tokens (token : string)
    (refresh_tokens : bool) (additional_params : option dict)
    : Call response :=
  let form_data : dict :=
    {[ "grant_type" := VStr "urn:globus:auth:grant_type:dependent_token";
       "token" := VStr token ]} in
  let form_data := if refresh_tokens
                   then <["access_type" := VStr "offline"]> form_data
                   else form_data in
  let form_data := if truthy additional_params
                   then update form_data (default ∅ additional_params)
                   else form_data in
  oauth2_token form_data None OAuthDependentTokenResponse.

Definition oauth2_token_introspect (token : string)
    (include : option string) : Call response :=
  let body : dict := {[ "token" := VStr token ]} in
  let body := match include with
              | Some i => <["include" := VStr i]> body
              | None => body
              end in
  post tr "/v2/oauth2/token/introspect" (Some body) (Some "form").

End methods.

End auth.

(** ** [globus_sdk/services/flows/client.py] *)

Module flows.
Import utils.

(** A [FlowsClient] has no attribute the listings read or write. *)
Inductive FlowsClient := TheFlowsClient.

Abbreviation Call A := (M FlowsClient A).

(** [orderby: str | Iterable[str]] *)
Inductive orderby_arg :=
| OrderStr (s : string)
| OrderIter (ss : list string).

Section methods.

Variable tr : transport.

(** The [has_paginator] decorator only registers the paginator class for
    the [paginated] interface; a direct call runs the body below. *)
Definition list_flows (filter_role filter_fulltext : option string)
    (orderby : option orderby_arg) (marker : option string)
    (query_params : option loc) : Call response :=
  query_params ← match query_params with
                 | None => new_dict ∅
                 | Some l => mret l
                 end;
  when_not_None filter_role (λ v,
    setitem query_params "filter_role" (VStr v));;
  when_not_None filter_fulltext (λ v,
    setitem query_params "filter_fulltext" (VStr v));;
  when_not_None orderby (λ v,
    match v with
    | OrderStr s => setitem query_params "orderby" (VStr s)
    | OrderIter ss => setitem query_params "orderby" (as_val ss)
    end);;
  when_not_None marker (λ v,
    setitem query_params "marker" (VStr v));;
  qp ← read_dict query_params;
  r ← get tr "/flows" (Some qp);
  mret (wrap IterableFlowsResponse r).

Definition list_runs (filter_flow_id : option strseq)
    (marker : option string) (query_params : option loc)
    : Call response :=
  query_params ← match query_params with
                 | None => new_dict ∅
                 | Some l => mret l
                 end;
  when_not_None filter_flow_id (λ v,
    setitem query_params "filter_flow_id"
            (VStr (join "," (safe_strseq_iter v))));;
  when_not_None marker (λ v,
    setitem query_params "marker" (VStr v));;
  qp ← read_dict query_params;
  r ← get tr "/runs" (Some qp);
  mret (wrap IterableRunsResponse r).

(** The method rebinds [query_params] to dicts of its own: the caller's
    dict is only read. *)
Definition get_run_logs (run_id : UUIDLike) (limit : option Z)
    (reverse_order : option bool) (marker : option string)
    (query_params : option loc) : Call response :=
  extra ← match query_params with
          | None => mret ∅
          | Some l => read_dict l
          end;
  let query_params : dict :=
    update {[ "limit" := as_val limit;
              "reverse_order" := as_val reverse_order;
              "marker" := as_val marker ]} extra in
  let query_params : dict :=
    filter (λ kv, is_None kv.2 = false) query_params in
  r ← get tr ("/runs/" +:+ str (UUIDLike_atom run_id) +:+ "/log")
             (Some query_params);
  mret (wrap IterableRunLogsResponse r).

End methods.

End flows.

(** ** Vocabulary of the statements *)

Module spec.
Import utils auth.

(** What an optional setter must have done with the keyword arguments
    [kw], seen from one key [k] of the wrapped mapping: a key passed with a
    value holds the converted value, a key passed as [None] and a key that
    was not passed hold what they held before. *)
Definition optional_set {A} (cb : A → val) (kw : kwargs A)
    (before after : PayloadWrapper) (k : string) : Prop :=
  (∀ v, (k, Some v) ∈ kw → after !! k = Some (cb v)) ∧
  ((k, None) ∈ kw → after !! k = before !! k) ∧
  (k ∉ kw.*1 → after !! k = before !! k).

(** [if x is not None: d[key] = x] on a dict value. *)
Definition set_opt (key : string) (x : option val) (d : dict) : dict :=
  match x with Some v => <[key := v]> d | None => d end.

(** The query parameters [oauth2_get_authorize_url] hands to the flow
    manager, from the dict [d] it started with. *)
Definition authorize_params (identities domains policies : option strseq)
    (prompt : option string) (d : dict) : dict :=
  set_opt "prompt" (VStr <$> prompt)
    (set_opt "session_required_policies" (VStr ∘ commajoin <$> policies)
       (set_opt "session_required_single_domain"
                (VStr ∘ commajoin <$> domains)
          (set_opt "session_required_identities"
                   (VStr ∘ commajoin <$> identities) d))).

(** The world [w] with the dict at [l] replaced by (or created as) [d]. *)
Definition with_dict {C} (w : world C) (l : loc) (d : dict) : world C :=
  World (this w) (<[l := d]> (dicts w)) (managers w) (sent w).

(** The world [w] after one more request. *)
Definition with_request {C} (w : world C) (r : request) : world C :=
  World (this w) (dicts w) (managers w) (sent w ++ [r]).

(** What [send] returns for the answer of the transport. *)
Definition answer (cls : response_class) (a : exn + raw_response)
    : outcome response :=
  match a with
  | inr resp => Return (Response cls resp)
  | inl e => Raise e
  end.


(** What [list_flows] stores under [orderby]. *)
Definition orderby_val (v : flows.orderby_arg) : val :=
  match v with
  | flows.OrderStr s => VStr s
  | flows.OrderIter ss => as_val ss
  end.

(** The query parameters of [list_flows], from the dict it started
    with. *)
Definition list_flows_params (filter_role filter_fulltext : option string)
    (orderby : option flows.orderby_arg) (marker : option string)
    (d : dict) : dict :=
  set_opt "marker" (VStr <$> marker)
    (set_opt "orderby" (orderby_val <$> orderby)
       (set_opt "filter_fulltext" (VStr <$> filter_fulltext)
          (set_opt "filter_role" (VStr <$> filter_role) d))).

(** The query parameters of [list_runs], from the dict it started with. *)
Definition list_runs_params (filter_flow_id : option strseq)
    (marker : option string) (d : dict) : dict :=
  set_opt "marker" (VStr <$> marker)
    (set_opt "filter_flow_id"
             ((λ v, VStr (join "," (safe_strseq_iter v))) <$> filter_flow_id)
       d).

(** One method call on a login client, with its arguments: the methods of
    [AuthLoginClient] and [ConfidentialAppAuthClient] embedded above (the
    deprecated [get_identities] is not embedded). *)
Inductive call :=
| Get_authorize_url (identities domains policies : option strseq)
                    (prompt : option string) (query_params : option loc)
| Exchange_code_for_tokens (auth_code : string)
| Refresh_token (refresh_token : string) (body_params : option dict)
| Validate_token (token : string) (body_params : option dict)
| Revoke_token (token : string) (body_params : option dict)
| Userinfo
| Client_credentials_tokens (requested_scopes : option ScopeCollectionType)
| Start_flow (redirect_uri : string)
             (requested_scopes : option ScopeCollectionType)
             (state : string) (refresh_tokens : bool)
| Get_dependent_tokens (token : string) (refresh_tokens : bool)
                       (additional_params : option dict)
| Token_introspect (token : string) (include : option string).

(** The world after a call, however the call ended. *)
Definition perform (tr : transport)
    (url : GlobusOAuthFlowManager → dict → string) (c : call)
    (w : world AuthLoginClient) : world AuthLoginClient :=
  match c with
  | Get_authorize_url ids doms pols prompt qp =>
      (oauth2_get_authorize_url url ids doms pols prompt qp w).2
  | Exchange_code_for_tokens code =>
      (oauth2_exchange_code_for_tokens tr code w).2
  | Refresh_token t bp => (oauth2_refresh_token tr t bp w).2
  | Validate_token t bp => (oauth2_validate_token tr t bp w).2
  | Revoke_token t bp => (oauth2_revoke_token tr t bp w).2
  | Userinfo => (oauth2_userinfo tr w).2
  | Client_credentials_tokens scopes =>
      (oauth2_client_credentials_tokens tr scopes w).2
  | Start_flow uri scopes state refresh =>
      (oauth2_start_flow uri scopes state refresh w).2
  | Get_dependent_tokens t refresh extra =>
      (oauth2_get_dependent_tokens tr t refresh extra w).2
  | Token_introspect t include => (oauth2_token_introspect tr t include w).2
  end.

(** The worlds whose client is a [ConfidentialAppAuthClient] made from
    [client_id] and [client_secret]: the client was constructed, in any
    store, and since then methods were called on it and the caller wrote to
    dicts of its own. *)
Inductive confidential_client (tr : transport)
    (url : GlobusOAuthFlowManager → dict → string)
    (client_id : UUIDLike) (client_secret : string)
    : world AuthLoginClient → Prop :=
| constructed ds ms rs :
    confidential_client tr url client_id client_secret
      (World (ConfidentialAppAuthClient__init__ client_id client_secret)
             ds ms rs)
| called c w :
    confidential_client tr url client_id client_secret w →
    confidential_client tr url client_id client_secret (perform tr url c w)
| caller_wrote ds w :
    confidential_client tr url client_id client_secret w →
    confidential_client tr url client_id client_secret
      (World (this w) ds (managers w) (sent w)).

(** A computation that leaves the client object as it was. *)
Definition keeps_this {C A} (m : M C A) : Prop :=
  ∀ w, this (m w).2 = this w.

End spec.

(** ** Sample clients and worlds *)

Module sample.
Import utils auth flows.

(** A network that is down. *)
Definition offline : transport := λ _ _, inl (NetworkError "unreachable").

(** A service that answers every request with [200 {}]. *)
Definition ok : transport :=
  λ _ _, inr {| status_code := 200; text := "{}" |}.

(** A stand-in for the manager's URL builder: the [state] token followed
    by the keys of the query parameters. *)
Definition url_of (m : GlobusOAuthFlowManager) (qp : dict) : string :=
  match m with
  | GlobusAuthorizationCodeFlowManager _ _ _ state _
  | GlobusNativeAppFlowManager _ _ _ state _ _ _ =>
      state +:+ "?" +:+ join "&" (map_to_list qp).*1
  end.

(** [AuthLoginClient(client_id="CID1")], no authorizer, no flow started,
    nothing allocated and nothing sent. *)
Definition anonymous : world AuthLoginClient :=
  World (AuthLoginClient__init__ (Some (OfStr "CID1")) None) ∅ ∅ [].

(** [ConfidentialAppAuthClient("CID1", "RAND2002")], just constructed. *)
Definition confidential : world AuthLoginClient :=
  World (ConfidentialAppAuthClient__init__ (OfStr "CID1") "RAND2002")
        ∅ ∅ [].

Definition a_manager : GlobusOAuthFlowManager :=
  GlobusAuthorizationCodeFlowManager (Some "CID1") "https://example.org/cb"
    (Some (OneScope "openid")) "xyz" false.

(** The confidential client after [oauth2_start_flow], with one empty dict
    of the caller's at location [1]. *)
Definition started : world AuthLoginClient :=
  World (Client (Some (BasicAuthorizer "CID1" "RAND2002")) (Some "CID1")
                (Some 1%positive))
        {[ 1%positive := ∅ ]}
        {[ 1%positive := a_manager ]}
        [].

Definition flows_world : world FlowsClient := World TheFlowsClient ∅ ∅ [].

End sample.

(** ** The rest of [globus_sdk/utils.py] *)

Module utils_rest.
Import utils.

(** [s.startswith(p)] *)
Definition startswith (s p : string) : bool := String.prefix p s.

(** [s.endswith(p)]: some suffix of [s] is [p]. *)
Fixpoint endswith (s p : string) : bool :=
  String.eqb s p ||
  match s with
  | EmptyString => false
  | String _ s' => endswith s' p
  end.

(** [s[:-1]] *)
Fixpoint drop_last (s : string) : string :=
  match s with
  | EmptyString => ""
  | String c EmptyString => ""
  | String c s' => String c (drop_last s')
  end.

(** [not b] for [b: str | None] is true of [None] and of [""]. *)
Definition slash_join (a : string) (b : option string) : string :=
  match b with
  | None => a
  | Some b =>
      if String.eqb b "" then a
      else if endswith a "/" then
        if startswith b "/" then drop_last a +:+ b else a +:+ b
      else if startswith b "/" then a +:+ b
      else a +:+ "/" +:+ b
  end.

(** The arguments of [render_enums_for_api]:
    - a [str], [UUID], [int] or [bool], [None], or a [bytes] object;
    - a member of an [Enum] class, given by its [value] and by whether the
      class mixes in [str] or [bytes], so that the member is itself a [str]
      or [bytes] object;
    - an iterable other than a [str] or [bytes], given by the objects it
      yields and by whether it is a [list] or of another type (a tuple, a
      set, a dict, which yields its keys, a generator, or a member of an
      [Enum] class that mixes in such a type). *)
#[local] Unset Elimination Schemes.
Inductive obj :=
| Plain (a : atom)
| NoneObj
| Bytes (b : string)
| Member (is_str : bool) (value : obj)
| Collection (is_list : bool) (xs : list obj).
#[local] Set Elimination Schemes.

(** A [str] or [bytes] object, enum member or not, is returned as it is;
    any other iterable becomes the list of its rendered items; any other
    enum member is replaced by its [value], which is not rendered. *)
Fixpoint render_enums_for_api (value : obj) : obj :=
  match value with
  | Plain (Str _) | Bytes _ | Member true _ => value
  | Collection _ xs => Collection true (List.map render_enums_for_api xs)
  | Member false v => v
  | _ => value
  end.



(** The keyword arguments that carry a value. *)
Definition passed {A} (kw : kwargs A) : list string :=
  (filter (λ kv, is_Some kv.2) kw).*1.

End utils_rest.

(** ** The rest of [globus_sdk/services/flows/client.py] *)

Module flows_rest.
Import utils flows.

Section methods.

Variable tr : transport.

(** [query_params or {}]: a supplied dict that is empty is replaced by a
    new one. *)
Definition get_run (run_id : UUIDLike)
    (include_flow_description : option bool) (query_params : option loc)
    : Call response :=
  query_params ← match query_params with
                 | None => new_dict ∅
                 | Some l =>
                     d ← read_dict l;
                     if truthy (Some d) then mret l else new_dict ∅
                 end;
  when_not_None include_flow_description (λ v,
    setitem query_params "include_flow_description" (VBool v));;
  qp ← read_dict query_params;
  get tr ("/runs/" +:+ str (UUIDLike_atom run_id)) (Some qp).

End methods.

End flows_rest.

(** ** More vocabulary *)

Module spec_rest.
Import utils auth.

(** A computation that leaves a component of the world as it was. *)
Definition keeps {C A X} (part : world C → X) (m : M C A) : Prop :=
  ∀ w, part (m w).2 = part w.

(** The current flow, if any, is a manager in the store. *)
Definition flow_allocated (w : world AuthLoginClient) : Prop :=
  ∀ l, current_oauth2_flow_manager (this w) = Some l →
       is_Some (managers w !! l).

(** The form data of [oauth2_get_dependent_tokens] before
    [additional_params]. *)
Definition dependent_form (token : string) (refresh_tokens : bool) : dict :=
  if refresh_tokens
  then {[ "access_type" := VStr "offline";
          "grant_type" := VStr "urn:globus:auth:grant_type:dependent_token";
          "token" := VStr token ]}
  else {[ "grant_type" := VStr "urn:globus:auth:grant_type:dependent_token";
          "token" := VStr token ]}.

(** The dict [get_run_logs] builds before it drops the [None] values. *)
Definition run_logs_params (limit : option Z) (reverse_order : option bool)
    (marker : option string) (extra : dict) : dict :=
  update {[ "limit" := as_val limit;
            "reverse_order" := as_val reverse_order;
            "marker" := as_val marker ]} extra.

(** An optional setter, as a function of its keyword arguments. *)
Abbreviation setter A := (kwargs A → PayloadWrapper → PayloadWrapper).

(** The order in which distinct keyword arguments are written does not
    matter. *)
Definition order_independent {A} (f : setter A) : Prop :=
  ∀ kw kw' self, NoDup kw.*1 → kw ≡ₚ kw' → f kw self = f kw' self.

(** Calling the setter again with the same keyword arguments changes
    nothing. *)
Definition idempotent {A} (f : setter A) : Prop :=
  ∀ kw self, NoDup kw.*1 → f kw (f kw self) = f kw self.

(** The keys after the call are the keys before it and the keywords passed
    with a value. *)
Definition grows_by_passed {A} (f : setter A) : Prop :=
  ∀ kw self,
    dom (f kw self) = dom self ∪ list_to_set (utils_rest.passed kw).

(** A component of the world that does not depend on the dicts. *)
Definition ignores_dicts {C X} (part : world C → X) : Prop :=
  ∀ w ds, part (World (this w) ds (managers w) (sent w)) = part w.

(** A component of the world that does not depend on the requests sent. *)
Definition ignores_sent {C X} (part : world C → X) : Prop :=
  ∀ w rs, part (World (this w) (dicts w) (managers w) rs) = part w.

(** The requests sent grew by at most one. *)
Definition at_most_one_more {C} (w w' : world C) : Prop :=
  sent w' = sent w ∨ ∃ r, sent w' = (sent w ++ [r])%list.

End spec_rest.

Import utils auth flows spec.
Import utils_rest flows_rest spec_rest.

(** ** Stringification and comma-joining *)

Example UUID_str_example :
  UUID_str {| int := 0x12345678123456781234567812345678 |}
  = "12345678-1234-5678-1234-567812345678".
Proof. reflexivity. Qed.

Example commajoin_example :
  commajoin (Iterable [Str "a"; Uuid {| int := 255 |}; Int (-7)])
  = "a,00000000-0000-0000-0000-0000000000ff,-7".
Proof. reflexivity. Qed.

Lemma commajoin_Iterable (xs : list atom) :
  commajoin (Iterable xs) = join "," (str <$> xs).
Proof. reflexivity. Qed.

Lemma commajoin_Solitary (x : UUIDLike) :
  commajoin (Solitary x) = str (UUIDLike_atom x).
Proof. by destruct x. Qed.

Lemma commajoin_singleton (x : UUIDLike) :
  commajoin (Iterable [UUIDLike_atom x]) = commajoin (Solitary x).
Proof. by destruct x. Qed.

(** ** The optional setters of [PayloadWrapper] *)

Section setters.
Context {A : Type} `{!AsVal A}.
Implicit Types (kw : kwargs A) (self : PayloadWrapper) (k : string).

Lemma _set_value_lookup key (v : option A) cb self k :
  _set_value key v (Some cb) self !! k
  = if decide (key = k) then from_option (Some ∘ cb) (self !! k) v
    else self !! k.
Proof.
  unfold _set_value. destruct v as [a|]; simpl.
  - rewrite lookup_insert. by case_decide.
  - by case_decide.
Qed.

Lemma set_each_cons cb key v kw self :
  set_each cb ((key, v) :: kw) self
  = set_each cb kw (_set_value key v (Some cb) self).
Proof. reflexivity. Qed.

(** The loop, read key by key: the keyword arguments decide. *)
Lemma set_each_lookup cb kw self k :
  NoDup kw.*1 →
  set_each cb kw self !! k
  = match (list_to_map kw : gmap string (option A)) !! k with
    | Some (Some v) => Some (cb v)
    | _ => self !! k
    end.
Proof.
  revert self. induction kw as [|[key v] kw IH]; intros self Hnd.
  - done.
  - apply NoDup_cons in Hnd as [Hkey Hnd].
    rewrite set_each_cons, IH by done. simpl.
    rewrite _set_value_lookup, lookup_insert.
    destruct (decide (key = k)) as [->|Hne].
    + rewrite (not_elem_of_list_to_map_1 kw k) by done.
      by destruct v.
    + done.
Qed.

Lemma set_each_optional_set cb kw self k :
  NoDup kw.*1 → optional_set cb kw self (set_each cb kw self) k.
Proof.
  intros Hnd. unfold optional_set. rewrite set_each_lookup by done.
  split; [|split].
  - intros v Hin. by rewrite (elem_of_list_to_map_1 kw k (Some v)).
  - intros Hin. by rewrite (elem_of_list_to_map_1 kw k None).
  - intros Hout. by rewrite (not_elem_of_list_to_map_1 kw k).
Qed.

End setters.

(** C9: for each of [_set_optstrs], [_set_optstrlists], [_set_optbools] and
    [_set_optints], and each key of the wrapped mapping: a keyword argument
    passed as [None] leaves the key as it was (absent or with its old entry),
    a keyword argument with a value stores the value converted by the
    setter's callback ([str], the list of stringified elements, [bool],
    [int]), and a key that is not among the keyword arguments is not
    modified.  Keyword arguments have distinct names. *)
Theorem optional_setters_frame :
  (∀ (kw : kwargs atom) self k, NoDup kw.*1 →
     optional_set (λ x, VStr (str x)) kw self (_set_optstrs kw self) k) ∧
  (∀ (kw : kwargs strseq) self k, NoDup kw.*1 →
     optional_set (λ x, VList (VStr <$> safe_strseq_iter x)) kw self
                  (_set_optstrlists kw self) k) ∧
  (∀ (kw : kwargs bool) self k, NoDup kw.*1 →
     optional_set VBool kw self (_set_optbools kw self) k) ∧
  (∀ (kw : kwargs intlike) self k, NoDup kw.*1 →
     optional_set (λ x, VInt (to_int x)) kw self (_set_optints kw self) k).
Proof.
  split; [ | split; [ | split ] ]; intros kw self k Hnd;
    by apply set_each_optional_set.
Qed.

Lemma optional_setters_frame_witness :
  NoDup ([("label", Some (Str "x")); ("owner", None)] : kwargs atom).*1 ∧
  optional_set (λ x, VStr (str x))
    [("label", Some (Str "x")); ("owner", None)]
    {[ "owner" := VStr "me" ]}
    (_set_optstrs [("label", Some (Str "x")); ("owner", None)]
                  {[ "owner" := VStr "me" ]})
    "owner".
Proof.
  assert (Hnd : NoDup ([("label", Some (Str "x")); ("owner", None)]
                         : kwargs atom).*1).
  { simpl. apply NoDup_cons; split; [ | apply NoDup_singleton ].
    intros Hin. apply list_elem_of_singleton in Hin. discriminate. }
  split; [ exact Hnd | ].
  exact (proj1 optional_setters_frame _ _ _ Hnd).
Defined.

Example _set_optstrs_example :
  _set_optstrs [("label", Some (Str "x")); ("owner", None);
                ("id", Some (Uuid {| int := 1 |}))]
               {[ "owner" := VStr "me"; "label" := VStr "old" ]}
  = {[ "owner" := VStr "me"; "label" := VStr "x";
       "id" := VStr "00000000-0000-0000-0000-000000000001" ]}.
Proof. apply map_eq. intros k. vm_compute. reflexivity. Qed.

(** ** Running computations *)

Section running.
Context {C : Type}.
Implicit Types (w : world C) (l : loc) (d : dict).

Lemma bind_run {A B} (m : M C A) (f : A → M C B) w :
  (m ≫= f) w
  = match m w with
    | (Return a, w') => f a w'
    | (Raise e, w') => (Raise e, w')
    | (Dangling, w') => (Dangling, w')
    end.
Proof. reflexivity. Qed.

Lemma with_dict_id w l d : dicts w !! l = Some d → with_dict w l d = w.
Proof.
  intros Hl. destruct w as [c ds ms rs]. unfold with_dict. simpl in *.
  by rewrite insert_id.
Qed.

Lemma new_dict_run w d :
  new_dict d w = (Return (fresh (dom (dicts w))),
                  with_dict w (fresh (dom (dicts w))) d).
Proof. reflexivity. Qed.

Lemma fresh_dict_unused w : dicts w !! fresh (dom (dicts w)) = None.
Proof. apply not_elem_of_dom, is_fresh. Qed.

Lemma setitem_with_dict w l d key v :
  setitem l key v (with_dict w l d)
  = (Return (), with_dict w l (<[key := v]> d)).
Proof.
  unfold setitem, with_dict. simpl.
  by rewrite lookup_insert_eq, insert_insert_eq.
Qed.

Lemma when_setitem_with_dict {A} (x : option A) (f : A → val) w l d key :
  when_not_None x (λ v, setitem l key (f v)) (with_dict w l d)
  = (Return (), with_dict w l (set_opt key (f <$> x) d)).
Proof. destruct x; simpl; [ apply setitem_with_dict | done ]. Qed.

Lemma read_dict_with_dict w l d :
  read_dict l (with_dict w l d) = (Return d, with_dict w l d).
Proof. unfold read_dict, with_dict. simpl. by rewrite lookup_insert_eq. Qed.

Lemma send_run tr (r : request) w :
  send tr r w = (answer GlobusHTTPResponse (tr (sent w) r), with_request w r).
Proof. unfold send, answer, with_request. by destruct (tr _ _). Qed.

End running.

(** ** The login client: the current flow *)

Section current_flow.
Variable tr : transport.
Variable url : GlobusOAuthFlowManager → dict → string.
Implicit Types (w : world AuthLoginClient) (l q : loc) (d : dict).

(** With a flow bound and no dict supplied, the method fills a dict of its
    own. *)
Lemma oauth2_get_authorize_url_fresh w l m ids doms pols prompt :
  current_oauth2_flow_manager (this w) = Some l →
  managers w !! l = Some m →
  let q := fresh (dom (dicts w)) in
  let d := authorize_params ids doms pols prompt ∅ in
  oauth2_get_authorize_url url ids doms pols prompt None w
  = (Return (url m d), with_dict w q d).
Proof.
  intros Hslot Hm q d. unfold oauth2_get_authorize_url.
  rewrite bind_run. simpl. rewrite Hslot.
  rewrite bind_run, new_dict_run.
  do 4 rewrite bind_run, when_setitem_with_dict.
  rewrite bind_run. unfold read_manager at 1. simpl. rewrite Hm.
  by rewrite bind_run, read_dict_with_dict.
Qed.

(** With a flow bound and a dict supplied, the method fills that dict. *)
Lemma oauth2_get_authorize_url_supplied w l m q d0 ids doms pols prompt :
  current_oauth2_flow_manager (this w) = Some l →
  managers w !! l = Some m →
  dicts w !! q = Some d0 →
  let d := authorize_params ids doms pols prompt d0 in
  oauth2_get_authorize_url url ids doms pols prompt (Some q) w
  = (Return (url m d), with_dict w q d).
Proof.
  intros Hslot Hm Hq d. unfold oauth2_get_authorize_url.
  rewrite bind_run. simpl. rewrite Hslot.
  rewrite bind_run. simpl. rewrite <- (with_dict_id w q d0) at 1 by done.
  do 4 rewrite bind_run, when_setitem_with_dict.
  rewrite bind_run. unfold read_manager at 1. simpl. rewrite Hm.
  by rewrite bind_run, read_dict_with_dict.
Qed.

Lemma oauth2_start_flow_run w redirect_uri scopes state refresh_tokens :
  let l := fresh (dom (managers w)) in
  oauth2_start_flow redirect_uri scopes state refresh_tokens w
  = (Return (Some l),
     World (Client (authorizer (this w)) (client_id (this w)) (Some l))
           (dicts w)
           (<[l := GlobusAuthorizationCodeFlowManager
                     (client_id (this w)) redirect_uri scopes state
                     refresh_tokens]> (managers w))
           (sent w)).
Proof. reflexivity. Qed.

End current_flow.

Section current_flow_properties.
Variable tr : transport.
Variable url : GlobusOAuthFlowManager → dict → string.
Implicit Types (w : world AuthLoginClient) (l q : loc) (d : dict).

(** C1: on a client whose [current_oauth2_flow_manager] is [None],
    [oauth2_get_authorize_url] and [oauth2_exchange_code_for_tokens] raise
    [GlobusSDKUsageError], whose kind differs from the transport and API
    error kinds, and leave the world as it was: in particular no request is
    sent. *)
Theorem usage_error_without_flow w :
  current_oauth2_flow_manager (this w) = None →
  (∀ ids doms pols prompt qp, ∃ msg,
      oauth2_get_authorize_url url ids doms pols prompt qp w
      = (Raise (GlobusSDKUsageError msg), w)) ∧
  (∀ auth_code, ∃ msg,
      oauth2_exchange_code_for_tokens tr auth_code w
      = (Raise (GlobusSDKUsageError msg), w)) ∧
  (∀ msg, kind_of (GlobusSDKUsageError msg) = UsageError) ∧
  (∀ e, kind_of e = TransportError ∨ kind_of e = APIError →
        kind_of e ≠ UsageError).
Proof.
  intros Hslot. split; [ | split; [ | split ] ].
  - intros. eexists. unfold oauth2_get_authorize_url.
    rewrite bind_run. simpl. by rewrite Hslot.
  - intros. eexists. unfold oauth2_exchange_code_for_tokens.
    rewrite bind_run. simpl. by rewrite Hslot.
  - done.
  - intros e [He|He]; rewrite He; discriminate.
Qed.

(** C2: [oauth2_start_flow] always returns normally; it allocates a new
    [GlobusAuthorizationCodeFlowManager] built from its arguments, makes
    [current_oauth2_flow_manager] refer to it and returns that same
    reference; a manager that was current before is simply no longer
    referred to: every manager allocated earlier is still in the store,
    unchanged, and nothing is sent. *)
Theorem start_flow_replaces_current w redirect_uri scopes state refresh :
  ∃ l w',
    oauth2_start_flow redirect_uri scopes state refresh w
    = (Return (Some l), w') ∧
    current_oauth2_flow_manager (this w') = Some l ∧
    managers w !! l = None ∧
    managers w' !! l
    = Some (GlobusAuthorizationCodeFlowManager (client_id (this w))
              redirect_uri scopes state refresh) ∧
    (∀ l', l' ≠ l → managers w' !! l' = managers w !! l') ∧
    authorizer (this w') = authorizer (this w) ∧
    client_id (this w') = client_id (this w) ∧
    dicts w' = dicts w ∧
    sent w' = sent w.
Proof.
  eexists _, _. split; [ apply oauth2_start_flow_run | ]. simpl.
  split; [ done | ].
  split; [ apply not_elem_of_dom, is_fresh | ].
  split; [ apply lookup_insert_eq | ].
  split; [ | done ].
  intros l' Hne. by apply lookup_insert_ne.
Qed.

End current_flow_properties.

Lemma usage_error_without_flow_witness :
  current_oauth2_flow_manager (this sample.anonymous) = None ∧
  ∃ msg, oauth2_exchange_code_for_tokens sample.offline "code" sample.anonymous
         = (Raise (GlobusSDKUsageError msg), sample.anonymous).
Proof.
  split; [ reflexivity | ].
  exact (proj1 (proj2 (usage_error_without_flow sample.offline sample.url_of
                         sample.anonymous eq_refl)) "code").
Defined.

(** ** The query parameters of the authorize URL *)

Lemma set_opt_lookup key (x : option val) (d : dict) k :
  set_opt key x d !! k
  = if decide (key = k) then from_option Some (d !! k) x else d !! k.
Proof.
  destruct x as [v|]; simpl.
  - rewrite lookup_insert. by case_decide.
  - by case_decide.
Qed.

(** The four keys [oauth2_get_authorize_url] may assign. *)
Lemma authorize_params_lookup ids doms pols prompt (d : dict) k :
  authorize_params ids doms pols prompt d !! k
  = if decide (k = "session_required_identities")
    then from_option Some (d !! k) (VStr ∘ commajoin <$> ids)
    else if decide (k = "session_required_single_domain")
    then from_option Some (d !! k) (VStr ∘ commajoin <$> doms)
    else if decide (k = "session_required_policies")
    then from_option Some (d !! k) (VStr ∘ commajoin <$> pols)
    else if decide (k = "prompt")
    then from_option Some (d !! k) (VStr <$> prompt)
    else d !! k.
Proof.
  unfold authorize_params. rewrite !set_opt_lookup.
  repeat case_decide; simplify_eq; done.
Qed.

Lemma authorize_params_nothing (d : dict) :
  authorize_params None None None None d = d.
Proof. reflexivity. Qed.

Section authorize_url_properties.
Variable url : GlobusOAuthFlowManager → dict → string.
Implicit Types (w : world AuthLoginClient) (l q : loc) (d : dict).

(** C4: [commajoin] of a collection is the comma-join of the stringified
    members; [commajoin] of a solitary string or UUID is its
    stringification, which is also [commajoin] of the one-member
    collection; and [oauth2_get_authorize_url] (a flow being bound) passes
    [session_required_identities] on as that string, so that a single
    identifier and the collection holding just that identifier give the
    same call, whatever the other arguments. *)
Theorem session_required_identities_normalized :
  (∀ xs, commajoin (Iterable xs) = join "," (str <$> xs)) ∧
  (∀ x, commajoin (Solitary x) = str (UUIDLike_atom x)) ∧
  (∀ x, commajoin (Solitary x) = commajoin (Iterable [UUIDLike_atom x])) ∧
  (∀ w l m ids doms pols prompt query_params,
     current_oauth2_flow_manager (this w) = Some l →
     managers w !! l = Some m →
     (∀ q, query_params = Some q → is_Some (dicts w !! q)) →
     ∃ qp w',
       oauth2_get_authorize_url url (Some ids) doms pols prompt
                                query_params w
       = (Return (url m qp), w') ∧
       qp !! "session_required_identities" = Some (VStr (commajoin ids))) ∧
  (∀ w x doms pols prompt query_params,
     oauth2_get_authorize_url url (Some (Solitary x)) doms pols prompt
                              query_params w
     = oauth2_get_authorize_url url (Some (Iterable [UUIDLike_atom x]))
                                doms pols prompt query_params w).
Proof.
  split; [ exact commajoin_Iterable | ].
  split; [ exact commajoin_Solitary | ].
  split; [ intros x; symmetry; apply commajoin_singleton | ].
  split.
  - intros w l m ids doms pols prompt [q|] Hslot Hm Hq.
    + destruct (Hq q eq_refl) as [d0 Hd0]. eexists _, _.
      split; [ by apply (oauth2_get_authorize_url_supplied url w l m q d0) | ].
      by rewrite authorize_params_lookup.
    + eexists _, _.
      split; [ by apply (oauth2_get_authorize_url_fresh url w l m) | ].
      by rewrite authorize_params_lookup.
  - intros w x doms pols prompt query_params.
    unfold oauth2_get_authorize_url. cbn [when_not_None].
    by rewrite commajoin_singleton.
Qed.

(** C5, amended: with a flow bound, [oauth2_get_authorize_url] sends
    nothing and leaves the client and the flow managers as they were.  The
    dict it fills is the one the caller supplied, updated in place: each of
    [session_required_identities], [session_required_single_domain],
    [session_required_policies] and [prompt] whose argument is not [None]
    is assigned, every other key and every other dict is left as it was,
    and with all four arguments [None] the dict is unchanged.  Without a
    supplied dict the method fills a new one, and no dict that existed is
    touched.  The statement is about the client, the flow managers, the
    dicts and the requests sent; the [session_required_*] arguments are
    iterated by [commajoin], and what that does to an iterable object of
    the caller's is left out. *)
Theorem get_authorize_url_effects w l m ids doms pols prompt :
  current_oauth2_flow_manager (this w) = Some l →
  managers w !! l = Some m →
  (∃ q d w',
     oauth2_get_authorize_url url ids doms pols prompt None w
     = (Return (url m d), w') ∧
     this w' = this w ∧ managers w' = managers w ∧ sent w' = sent w ∧
     dicts w !! q = None ∧
     dicts w' = <[q := d]> (dicts w) ∧
     d = authorize_params ids doms pols prompt ∅) ∧
  (∀ q d0, dicts w !! q = Some d0 →
     ∃ d w',
       oauth2_get_authorize_url url ids doms pols prompt (Some q) w
       = (Return (url m d), w') ∧
       this w' = this w ∧ managers w' = managers w ∧ sent w' = sent w ∧
       dicts w' = <[q := d]> (dicts w) ∧
       d = authorize_params ids doms pols prompt d0 ∧
       (∀ k, k ∉ ["session_required_identities";
                   "session_required_single_domain";
                   "session_required_policies"; "prompt"] →
             d !! k = d0 !! k) ∧
       (ids = None → doms = None → pols = None → prompt = None →
        w' = w)).
Proof.
  intros Hslot Hm. split.
  - eexists _, _, _.
    split; [ by apply (oauth2_get_authorize_url_fresh url w l m) | ]. simpl.
    repeat (split; [ done | ]).
    split; [ apply fresh_dict_unused | done ].
  - intros q d0 Hq. eexists _, _.
    split; [ by apply (oauth2_get_authorize_url_supplied url w l m q d0) | ]. simpl.
    repeat (split; [ done | ]). split.
    + intros k Hk. rewrite authorize_params_lookup.
      repeat case_decide; subst; try done; exfalso; apply Hk; set_solver.
    + intros -> -> -> ->. rewrite authorize_params_nothing.
      by apply with_dict_id.
Qed.

End authorize_url_properties.

Lemma session_required_identities_normalized_witness :
  ∃ qp w',
    oauth2_get_authorize_url sample.url_of
      (Some (Iterable [Str "a@example.org"; Str "b@example.org"]))
      None None None None sample.started
    = (Return (sample.url_of sample.a_manager qp), w') ∧
    qp !! "session_required_identities"
    = Some (VStr "a@example.org,b@example.org").
Proof.
  apply (proj1 (proj2 (proj2 (proj2
           (session_required_identities_normalized sample.url_of))))
           sample.started 1%positive sample.a_manager
           (Iterable [Str "a@example.org"; Str "b@example.org"])
           None None None None).
  - reflexivity.
  - reflexivity.
  - intros q Hq. discriminate Hq.
Defined.

Lemma get_authorize_url_effects_witness :
  ∃ d w',
    oauth2_get_authorize_url sample.url_of None None None (Some "login")
                             (Some 1%positive) sample.started
    = (Return (sample.url_of sample.a_manager d), w') ∧
    this w' = this sample.started ∧
    managers w' = managers sample.started ∧
    sent w' = sent sample.started ∧
    d = authorize_params None None None (Some "login") ∅.
Proof.
  destruct (proj2 (get_authorize_url_effects sample.url_of sample.started
                     1%positive sample.a_manager None None None
                     (Some "login") eq_refl eq_refl)
                  1%positive ∅ eq_refl)
    as (d & w' & Hrun & Hthis & Hms & Hsent & _ & Hd & _).
  exists d, w'. repeat split; assumption.
Defined.

(** C5 as stated fails: the caller's dict, empty before the call, holds
    [prompt] after it. *)
Lemma get_authorize_url_mutates_supplied_dict :
  let w' := (oauth2_get_authorize_url sample.url_of None None None
               (Some "login") (Some 1%positive) sample.started).2 in
  dicts sample.started !! 1%positive = Some ∅ ∧
  dicts w' !! 1%positive = Some {[ "prompt" := VStr "login" ]} ∧
  dicts w' !! 1%positive ≠ dicts sample.started !! 1%positive.
Proof.
  rewrite (oauth2_get_authorize_url_supplied sample.url_of sample.started
             1%positive sample.a_manager 1%positive ∅ None None None
             (Some "login") eq_refl eq_refl eq_refl).
  simpl. split; [ reflexivity | ].
  rewrite lookup_insert_eq.
  split; [ reflexivity | ].
  change (dicts sample.started !! 1%positive) with (Some (∅ : dict)).
  intros Heq.
  apply (f_equal (λ o : option dict, d ← o; d !! "prompt")) in Heq.
  vm_compute in Heq. discriminate.
Qed.

(** ** The token endpoints *)

Lemma update_lookup (d other : dict) k :
  update d other !! k = from_option Some (d !! k) (other !! k).
Proof.
  unfold update. rewrite lookup_union.
  by destruct (other !! k), (d !! k).
Qed.

Lemma update_empty (d : dict) : update d ∅ = d.
Proof. unfold update. by rewrite (left_id_L ∅ (∪)). Qed.

(** [if extra: d.update(extra)] is [d.update(extra or {})]. *)
Lemma update_if_truthy (d : dict) (extra : option dict) :
  (if truthy extra then update d (default ∅ extra) else d)
  = update d (default ∅ extra).
Proof.
  destruct extra as [e|]; simpl.
  - case_bool_decide; simpl; [ subst; by rewrite update_empty | done ].
  - by rewrite update_empty.
Qed.

Lemma is_optional_NullAuthorizer (a : option GlobusAuthorizer) :
  is_optional a isinstance_NullAuthorizer = true
  ↔ a = None ∨ a = Some NullAuthorizer.
Proof.
  destruct a as [[| |]|]; simpl; split; intros H; try done; eauto;
    destruct H; discriminate.
Qed.

Lemma has_client_id_true (c : AuthLoginClient) :
  has_client_id c = true ↔ ∃ cid, client_id c = Some cid ∧ cid ≠ "".
Proof.
  unfold has_client_id. destruct (client_id c) as [cid|].
  - destruct (String.eqb_spec cid ""); simpl; split.
    + done.
    + intros (cid' & [= <-] & Hne). done.
    + eauto.
    + done.
  - split; [ done | ]. intros (cid & Hc & _). discriminate.
Qed.

Section token_properties.
Variable tr : transport.
Implicit Types (w : world AuthLoginClient) (d : dict).

Lemma oauth2_token_run form_data body_params cls w :
  let r := Request POST "/v2/oauth2/token" None
             (Some (update form_data (default ∅ body_params)))
             (Some "form") in
  oauth2_token tr form_data body_params cls w
  = (answer cls (tr (sent w) r), with_request w r).
Proof.
  intros r. unfold oauth2_token. rewrite update_if_truthy.
  rewrite bind_run. unfold post. rewrite send_run. fold r.
  by destruct (tr (sent w) r).
Qed.

(** The body [oauth2_validate_token] and [oauth2_revoke_token] post. *)
Lemma oauth2_validate_token_run token body_params w :
  let body : dict :=
    if is_optional (authorizer (this w)) isinstance_NullAuthorizer
       && has_client_id (this w)
    then update {[ "token" := VStr token ]}
                {[ "client_id" := as_val (client_id (this w)) ]}
    else {[ "token" := VStr token ]} in
  oauth2_validate_token tr token body_params w
  = post tr "/v2/oauth2/token/validate"
         (Some (update body (default ∅ body_params))) (Some "form") w.
Proof.
  intros body. unfold oauth2_validate_token.
  rewrite bind_run. simpl. by rewrite update_if_truthy.
Qed.

Lemma oauth2_revoke_token_run token body_params w :
  let body : dict :=
    if is_optional (authorizer (this w)) isinstance_NullAuthorizer
       && has_client_id (this w)
    then update {[ "token" := VStr token ]}
                {[ "client_id" := as_val (client_id (this w)) ]}
    else {[ "token" := VStr token ]} in
  oauth2_revoke_token tr token body_params w
  = post tr "/v2/oauth2/token/revoke"
         (Some (update body (default ∅ body_params))) (Some "form") w.
Proof.
  intros body. unfold oauth2_revoke_token.
  rewrite bind_run. simpl. by rewrite update_if_truthy.
Qed.

(** C3: with [body_params=None], [oauth2_validate_token] and
    [oauth2_revoke_token] post the same form body, which holds the token,
    and holds [client_id] (then with the client's own value) exactly when
    the authorizer is [None] or a [NullAuthorizer] and the client's
    [client_id] is a non-empty string; with any other authorizer the body
    is the token alone. *)
Theorem client_id_sent_when_unauthenticated token w :
  ∃ body : dict,
    oauth2_validate_token tr token None w
    = post tr "/v2/oauth2/token/validate" (Some body) (Some "form") w ∧
    oauth2_revoke_token tr token None w
    = post tr "/v2/oauth2/token/revoke" (Some body) (Some "form") w ∧
    body !! "token" = Some (VStr token) ∧
    (is_Some (body !! "client_id") ↔
       (authorizer (this w) = None ∨
        authorizer (this w) = Some NullAuthorizer) ∧
       ∃ cid, client_id (this w) = Some cid ∧ cid ≠ "") ∧
    (∀ v, body !! "client_id" = Some v →
          ∃ cid, client_id (this w) = Some cid ∧ v = VStr cid) ∧
    (∀ a, authorizer (this w) = Some a → a ≠ NullAuthorizer →
          body = {[ "token" := VStr token ]}).
Proof.
  set (unauth := is_optional (authorizer (this w)) isinstance_NullAuthorizer
                 && has_client_id (this w)).
  assert (Hunauth : unauth = true ↔
            (authorizer (this w) = None ∨
             authorizer (this w) = Some NullAuthorizer) ∧
            ∃ cid, client_id (this w) = Some cid ∧ cid ≠ "").
  { unfold unauth. rewrite andb_true_iff.
    by rewrite is_optional_NullAuthorizer, has_client_id_true. }
  eexists. split; [ | split ].
  - rewrite oauth2_validate_token_run. simpl. by rewrite update_empty.
  - rewrite oauth2_revoke_token_run. simpl. by rewrite update_empty.
  - fold unauth. destruct unauth.
    + destruct (proj1 Hunauth eq_refl) as [Hauth (cid & Hcid & Hne)].
      rewrite !update_lookup, Hcid, lookup_singleton_eq,
              (lookup_singleton_ne "client_id" "token") by done.
      simpl. rewrite lookup_singleton_eq.
      split; [ done | ]. split; [ | split ].
      * split; [ intros _; split; eauto | by eexists ].
      * intros v [= <-]. eauto.
      * intros a Ha Hnull. destruct Hauth; simplify_eq.
    + rewrite lookup_singleton_eq,
              (lookup_singleton_ne "token" "client_id") by done.
      split; [ done | ]. split; [ | split ].
      * split; [ by intros [? ?] | ].
        intros H. apply Hunauth in H. discriminate.
      * intros v [=].
      * done.
Qed.

End token_properties.

Section grant_properties.
Variable tr : transport.
Implicit Types (w : world AuthLoginClient) (d : dict).

(** C6: [oauth2_refresh_token] is [oauth2_token] on the form data
    [{refresh_token, grant_type: "refresh_token"}] with the default
    response class; it sends exactly one request, a form-encoded POST to
    [/v2/oauth2/token] whose body is the form data updated with
    [body_params], so that an entry of [body_params] replaces the computed
    field of the same key; the answer comes back as an
    [OAuthTokenResponse] and a failure of the transport is raised. *)
Theorem refresh_token_request refresh_token (body_params : option dict) w :
  let form_data : dict :=
    {[ "refresh_token" := VStr refresh_token;
       "grant_type" := VStr "refresh_token" ]} in
  let extra : dict := default ∅ body_params in
  ∃ body : dict,
    let r := Request POST "/v2/oauth2/token" None (Some body)
               (Some "form") in
    oauth2_refresh_token tr refresh_token body_params
    = oauth2_token tr form_data body_params OAuthTokenResponse ∧
    (oauth2_refresh_token tr refresh_token body_params w).1
    = match tr (sent w) r with
      | inr resp => Return (Response OAuthTokenResponse resp)
      | inl e => Raise e
      end ∧
    sent (oauth2_refresh_token tr refresh_token body_params w).2
    = (sent w ++ [r])%list ∧
    body = update form_data extra ∧
    (∀ k v, extra !! k = Some v → body !! k = Some v) ∧
    (∀ k, extra !! k = None → body !! k = form_data !! k) ∧
    form_data !! "refresh_token" = Some (VStr refresh_token) ∧
    form_data !! "grant_type" = Some (VStr "refresh_token").
Proof.
  intros form_data extra. eexists. cbv zeta.
  split; [ reflexivity | ].
  unfold oauth2_refresh_token. rewrite oauth2_token_run. simpl.
  split; [ reflexivity | ].
  split; [ reflexivity | ].
  split; [ reflexivity | ].
  split; [ | split ].
  - intros k v Hk. unfold extra in Hk. by rewrite update_lookup, Hk.
  - intros k Hk. unfold extra in Hk. by rewrite update_lookup, Hk.
  - split; reflexivity.
Qed.

(** C7: with [additional_params=None], [oauth2_get_dependent_tokens] posts
    to the token endpoint a form holding the dependent-token grant type and
    the token, and [access_type] (then ["offline"]) exactly when
    [refresh_tokens] is true, and nothing else; the answer comes back as an
    [OAuthDependentTokenResponse].  [oauth2_client_credentials_tokens]
    posts the grant type ["client_credentials"] and the stringified scopes,
    and its answer comes back as an [OAuthTokenResponse]. *)
Theorem dependent_and_client_credentials_grants w :
  (∀ token refresh_tokens, ∃ body : dict,
     let r := Request POST "/v2/oauth2/token" None (Some body)
                (Some "form") in
     oauth2_get_dependent_tokens tr token refresh_tokens None w
     = (answer OAuthDependentTokenResponse (tr (sent w) r),
        with_request w r) ∧
     body !! "grant_type"
     = Some (VStr "urn:globus:auth:grant_type:dependent_token") ∧
     body !! "token" = Some (VStr token) ∧
     body !! "access_type"
     = (if refresh_tokens then Some (VStr "offline") else None) ∧
     (is_Some (body !! "access_type") ↔ refresh_tokens = true) ∧
     (∀ k, k ∉ ["grant_type"; "token"; "access_type"] →
           body !! k = None)) ∧
  (∀ requested_scopes,
     let body : dict :=
       {[ "grant_type" := VStr "client_credentials";
          "scope" := VStr (stringify_requested_scopes requested_scopes) ]} in
     let r := Request POST "/v2/oauth2/token" None (Some body)
                (Some "form") in
     oauth2_client_credentials_tokens tr requested_scopes w
     = (answer OAuthTokenResponse (tr (sent w) r), with_request w r)).
Proof.
  assert (other_key : ∀ k : string,
            k ∉ ["grant_type"; "token"; "access_type"] →
            "grant_type" ≠ k ∧ "token" ≠ k ∧ "access_type" ≠ k).
  { intros k Hk. repeat split; intros <-; apply Hk; set_solver. }
  split.
  - intros token refresh_tokens. eexists. cbv zeta.
    split.
    { unfold oauth2_get_dependent_tokens. rewrite oauth2_token_run.
      simpl. rewrite !update_empty. reflexivity. }
    destruct refresh_tokens; simpl.
    + repeat split; try done.
      intros k Hk. apply other_key in Hk as (? & ? & ?).
      by simplify_map_eq.
    + repeat split; try done.
      * by intros [? ?].
      * intros k Hk. apply other_key in Hk as (? & ? & ?).
        by simplify_map_eq.
  - intros requested_scopes body r.
    unfold oauth2_client_credentials_tokens. rewrite oauth2_token_run.
    simpl. by rewrite update_empty.
Qed.

End grant_properties.

(** ** The confidential client keeps its authorizer *)

Section keeping.
Context {C : Type}.

Lemma keeps_ret {A} (a : A) : keeps_this (mret a : M C A).
Proof. by intros w. Qed.

Lemma keeps_raise {A} e : keeps_this (raise e : M C A).
Proof. by intros w. Qed.

Lemma keeps_bind {A B} (m : M C A) (f : A → M C B) :
  keeps_this m → (∀ a, keeps_this (f a)) → keeps_this (m ≫= f).
Proof.
  intros Hm Hf w. rewrite bind_run. specialize (Hm w).
  destruct (m w) as [[a|e|] w']; simpl in *; [ | done | done ].
  by rewrite Hf.
Qed.

Lemma keeps_get_this : keeps_this (get_this : M C C).
Proof. by intros w. Qed.

Lemma keeps_new_dict d : keeps_this (new_dict d : M C loc).
Proof. by intros w. Qed.

Lemma keeps_read_dict l : keeps_this (read_dict l : M C dict).
Proof. intros w. unfold read_dict. by destruct (dicts w !! l). Qed.

Lemma keeps_setitem l key v : keeps_this (setitem l key v : M C unit).
Proof. intros w. unfold setitem. by destruct (dicts w !! l). Qed.

Lemma keeps_read_manager l :
  keeps_this (read_manager l : M C GlobusOAuthFlowManager).
Proof. intros w. unfold read_manager. by destruct (managers w !! l). Qed.

Lemma keeps_when_not_None {A} (x : option A) (body : A → M C unit) :
  (∀ a, keeps_this (body a)) → keeps_this (when_not_None x body).
Proof. intros Hbody. destruct x; [ apply Hbody | apply keeps_ret ]. Qed.

Lemma keeps_send tr r : keeps_this (send tr r : M C response).
Proof. intros w. by rewrite send_run. Qed.

End keeping.

Create HintDb keeps discriminated.
#[local] Hint Resolve keeps_ret keeps_raise keeps_get_this keeps_new_dict
  keeps_read_dict keeps_setitem keeps_read_manager keeps_send : keeps.

(** Walks a method body: binds and branches are split, the primitives are
    closed from the hint database. *)
Ltac keeps :=
  repeat first
    [ apply keeps_bind; [ | intros ? ]
    | apply keeps_when_not_None; intros ?
    | progress auto with keeps
    | case_match ].

Section confidential_properties.
Variable tr : transport.
Variable url : GlobusOAuthFlowManager → dict → string.
Implicit Types (w : world AuthLoginClient) (d : dict).

Lemma keeps_oauth2_token form_data body_params cls :
  keeps_this (oauth2_token tr form_data body_params cls).
Proof. unfold oauth2_token, post. keeps. Qed.

Lemma keeps_oauth2_get_authorize_url ids doms pols prompt qp :
  keeps_this (oauth2_get_authorize_url url ids doms pols prompt qp).
Proof. unfold oauth2_get_authorize_url. keeps. Qed.

Lemma keeps_oauth2_exchange_code_for_tokens code :
  keeps_this (oauth2_exchange_code_for_tokens tr code).
Proof.
  unfold oauth2_exchange_code_for_tokens.
  apply keeps_bind; [ apply keeps_get_this | intros self ].
  destruct (current_oauth2_flow_manager self); [ | apply keeps_raise ].
  apply keeps_bind; [ apply keeps_read_manager | intros m ].
  destruct m; apply keeps_oauth2_token.
Qed.

Lemma keeps_oauth2_validate_token token body_params :
  keeps_this (oauth2_validate_token tr token body_params).
Proof. unfold oauth2_validate_token, post. keeps. Qed.

Lemma keeps_oauth2_revoke_token token body_params :
  keeps_this (oauth2_revoke_token tr token body_params).
Proof. unfold oauth2_revoke_token, post. keeps. Qed.

(** Every call leaves the authorizer and the client id as they were;
    [oauth2_start_flow] is the one call that writes to the client. *)
Lemma perform_identity c w :
  authorizer (this (perform tr url c w)) = authorizer (this w) ∧
  client_id (this (perform tr url c w)) = client_id (this w).
Proof.
  destruct c; unfold perform.
  - by rewrite (keeps_oauth2_get_authorize_url _ _ _ _ _ w).
  - by rewrite (keeps_oauth2_exchange_code_for_tokens _ w).
  - unfold oauth2_refresh_token. by rewrite (keeps_oauth2_token _ _ _ w).
  - by rewrite (keeps_oauth2_validate_token _ _ w).
  - by rewrite (keeps_oauth2_revoke_token _ _ w).
  - unfold oauth2_userinfo, get. by rewrite (keeps_send tr _ w).
  - unfold oauth2_client_credentials_tokens.
    by rewrite (keeps_oauth2_token _ _ _ w).
  - by rewrite oauth2_start_flow_run.
  - unfold oauth2_get_dependent_tokens.
    by rewrite (keeps_oauth2_token _ _ _ w).
  - unfold oauth2_token_introspect, post. by rewrite (keeps_send tr _ w).
Qed.

Lemma confidential_client_identity cid secret w :
  confidential_client tr url cid secret w →
  authorizer (this w)
  = Some (BasicAuthorizer (str (UUIDLike_atom cid)) secret) ∧
  client_id (this w) = Some (str (UUIDLike_atom cid)).
Proof.
  induction 1 as [ds ms rs | c w _ [IHa IHc] | ds w _ IH].
  - done.
  - destruct (perform_identity c w) as [-> ->]. done.
  - done.
Qed.

(** C10, amended: a [ConfidentialAppAuthClient] always carries the
    [BasicAuthorizer] built from its client id and secret, never [None] and
    never a [NullAuthorizer]; so [oauth2_validate_token] and
    [oauth2_revoke_token] never add the client's [client_id]: they post the
    token updated with [body_params], and the body has a [client_id] entry
    only if the caller's [body_params] has one. *)
Theorem confidential_client_never_adds_client_id cid secret w :
  confidential_client tr url cid secret w →
  authorizer (this w)
  = Some (BasicAuthorizer (str (UUIDLike_atom cid)) secret) ∧
  authorizer (this w) ≠ None ∧
  authorizer (this w) ≠ Some NullAuthorizer ∧
  ∀ token (body_params : option dict),
    let body := update {[ "token" := VStr token ]}
                       (default ∅ body_params) in
    oauth2_validate_token tr token body_params w
    = post tr "/v2/oauth2/token/validate" (Some body) (Some "form") w ∧
    oauth2_revoke_token tr token body_params w
    = post tr "/v2/oauth2/token/revoke" (Some body) (Some "form") w ∧
    body !! "client_id" = default ∅ body_params !! "client_id" ∧
    (body_params = None → body = {[ "token" := VStr token ]}).
Proof.
  intros Hw. destruct (confidential_client_identity _ _ _ Hw) as [Ha Hc].
  rewrite Ha. repeat (split; [ done | ]).
  intros token body_params body.
  split; [ | split; [ | split ] ].
  - rewrite oauth2_validate_token_run. by rewrite Ha.
  - rewrite oauth2_revoke_token_run. by rewrite Ha.
  - unfold body. rewrite update_lookup.
    rewrite (lookup_singleton_ne "token" "client_id") by done.
    by destruct (default ∅ body_params !! "client_id").
  - intros ->. unfold body. simpl. apply update_empty.
Qed.

End confidential_properties.

Lemma confidential_client_never_adds_client_id_witness :
  confidential_client sample.ok sample.url_of (OfStr "CID1") "RAND2002"
    sample.confidential ∧
  authorizer (this sample.confidential)
  = Some (BasicAuthorizer "CID1" "RAND2002").
Proof.
  assert (Hw : confidential_client sample.ok sample.url_of (OfStr "CID1")
                 "RAND2002" sample.confidential) by apply constructed.
  split; [ exact Hw | ].
  exact (proj1 (confidential_client_never_adds_client_id sample.ok
                  sample.url_of (OfStr "CID1") "RAND2002"
                  sample.confidential Hw)).
Defined.

(** C10 as stated fails: a [client_id] the caller passes in [body_params]
    is in the body a confidential client posts. *)
Lemma confidential_client_forwards_client_id :
  confidential_client sample.ok sample.url_of (OfStr "CID1") "RAND2002"
    sample.confidential ∧
  ∃ body : dict,
    sent (oauth2_validate_token sample.ok "tok123"
            (Some {[ "client_id" := VStr "CID2" ]}) sample.confidential).2
    = [Request POST "/v2/oauth2/token/validate" None (Some body)
         (Some "form")] ∧
    body !! "client_id" = Some (VStr "CID2").
Proof.
  split; [ apply constructed | ].
  eexists. split; [ reflexivity | ]. reflexivity.
Qed.

(** ** The marker of the flows listings *)

Section flows_properties.
Variable tr : transport.
Implicit Types (w : world FlowsClient) (d : dict).

Lemma when_orderby_with_dict (orderby : option orderby_arg) w l d :
  when_not_None orderby (λ v,
    match v with
    | OrderStr s => setitem l "orderby" (VStr s)
    | OrderIter ss => setitem l "orderby" (as_val ss)
    end) (with_dict w l d)
  = (Return (), with_dict w l (set_opt "orderby" (orderby_val <$> orderby) d)).
Proof.
  destruct orderby as [[s|ss]|]; simpl;
    [ apply setitem_with_dict | apply setitem_with_dict | done ].
Qed.

Lemma list_flows_fresh filter_role filter_fulltext orderby marker w :
  let q := fresh (dom (dicts w)) in
  let d := list_flows_params filter_role filter_fulltext orderby marker ∅ in
  let r := Request GET "/flows" (Some d) None None in
  list_flows tr filter_role filter_fulltext orderby marker None w
  = (answer IterableFlowsResponse (tr (sent w) r),
     with_request (with_dict w q d) r).
Proof.
  intros q d r. unfold list_flows.
  rewrite bind_run, new_dict_run.
  do 2 rewrite bind_run, when_setitem_with_dict.
  rewrite bind_run, when_orderby_with_dict.
  rewrite bind_run, when_setitem_with_dict.
  rewrite bind_run, read_dict_with_dict.
  rewrite bind_run. unfold get. rewrite send_run.
  subst q d r. unfold answer. by destruct (tr _ _).
Qed.

Lemma list_runs_fresh filter_flow_id marker w :
  let q := fresh (dom (dicts w)) in
  let d := list_runs_params filter_flow_id marker ∅ in
  let r := Request GET "/runs" (Some d) None None in
  list_runs tr filter_flow_id marker None w
  = (answer IterableRunsResponse (tr (sent w) r),
     with_request (with_dict w q d) r).
Proof.
  intros q d r. unfold list_runs.
  rewrite bind_run, new_dict_run.
  rewrite bind_run,
    (when_setitem_with_dict filter_flow_id
       (λ v, VStr (join "," (safe_strseq_iter v)))).
  rewrite bind_run, when_setitem_with_dict.
  rewrite bind_run, read_dict_with_dict.
  rewrite bind_run. unfold get. rewrite send_run.
  subst q d r. unfold answer. by destruct (tr _ _).
Qed.

Lemma get_run_logs_plain run_id limit reverse_order marker w :
  let d : dict :=
    filter (λ kv, is_None kv.2 = false)
      (update {[ "limit" := as_val limit;
                 "reverse_order" := as_val reverse_order;
                 "marker" := as_val marker ]} ∅) in
  let r := Request GET ("/runs/" +:+ str (UUIDLike_atom run_id) +:+ "/log")
             (Some d) None None in
  get_run_logs tr run_id limit reverse_order marker None w
  = (answer IterableRunLogsResponse (tr (sent w) r), with_request w r).
Proof.
  intros d r. unfold get_run_logs.
  rewrite bind_run. cbn [mret M_ret].
  rewrite bind_run. unfold get. rewrite send_run.
  fold d r. by destruct (tr (sent w) r).
Qed.

(** C8: called with [query_params=None], [list_flows], [list_runs] and
    [get_run_logs] send one GET whose query parameters hold [marker] with
    the caller's value, as it is, when the argument is not [None], and have
    no [marker] key when it is [None]. *)
Theorem marker_echoed w (marker : option string) :
  (∀ filter_role filter_fulltext orderby, ∃ qp w',
     let r := Request GET "/flows" (Some qp) None None in
     list_flows tr filter_role filter_fulltext orderby marker None w
     = (answer IterableFlowsResponse (tr (sent w) r), w') ∧
     sent w' = (sent w ++ [r])%list ∧
     qp !! "marker" = VStr <$> marker) ∧
  (∀ filter_flow_id, ∃ qp w',
     let r := Request GET "/runs" (Some qp) None None in
     list_runs tr filter_flow_id marker None w
     = (answer IterableRunsResponse (tr (sent w) r), w') ∧
     sent w' = (sent w ++ [r])%list ∧
     qp !! "marker" = VStr <$> marker) ∧
  (∀ run_id limit reverse_order, ∃ qp w',
     let r := Request GET
                ("/runs/" +:+ str (UUIDLike_atom run_id) +:+ "/log")
                (Some qp) None None in
     get_run_logs tr run_id limit reverse_order marker None w
     = (answer IterableRunLogsResponse (tr (sent w) r), w') ∧
     sent w' = (sent w ++ [r])%list ∧
     qp !! "marker" = VStr <$> marker).
Proof.
  split; [ | split ].
  - intros. eexists _, _. cbv zeta.
    split; [ apply list_flows_fresh | ]. split; [ done | ].
    unfold list_flows_params. rewrite set_opt_lookup.
    case_decide; [ | done ]. destruct marker; [ done | ].
    simpl. rewrite !set_opt_lookup.
    repeat (case_decide; [ done | ]). done.
  - intros. eexists _, _. cbv zeta.
    split; [ apply list_runs_fresh | ]. split; [ done | ].
    unfold list_runs_params. rewrite set_opt_lookup.
    case_decide; [ | done ]. destruct marker; [ done | ].
    simpl. rewrite !set_opt_lookup.
    repeat (case_decide; [ done | ]). done.
  - intros. eexists _, _. cbv zeta.
    split; [ apply get_run_logs_plain | ]. split; [ done | ].
    rewrite update_empty. destruct marker as [m|]; simpl.
    + apply map_lookup_filter_Some_2; [ | done ].
      by simplify_map_eq.
    + apply map_lookup_filter_None_2. right. intros x Hx.
      simplify_map_eq. done.
Qed.

End flows_properties.

Example get_run_logs_example :
  sent (get_run_logs sample.ok (OfStr "RUN1") (Some 5%Z) None (Some "m1")
          None sample.flows_world).2
  = [Request GET "/runs/RUN1/log"
       (Some {[ "limit" := VInt 5; "marker" := VStr "m1" ]}) None None].
Proof. vm_compute. reflexivity. Qed.

(** ** The scenarios of the specification, run *)

Example revoke_token_unauthenticated :
  sent (oauth2_revoke_token sample.ok "tok123" None sample.anonymous).2
  = [Request POST "/v2/oauth2/token/revoke" None
       (Some {[ "token" := VStr "tok123"; "client_id" := VStr "CID1" ]})
       (Some "form")].
Proof. vm_compute. reflexivity. Qed.

Example revoke_token_authenticated :
  sent (oauth2_revoke_token sample.ok "tok123" None sample.started).2
  = [Request POST "/v2/oauth2/token/revoke" None
       (Some {[ "token" := VStr "tok123" ]}) (Some "form")].
Proof. vm_compute. reflexivity. Qed.

Example start_flow_then_authorize_url :
  let w1 := (oauth2_start_flow "https://example.org/cb"
               (Some (OneScope "openid")) "xyz" false
               sample.confidential).2 in
  current_oauth2_flow_manager (this w1) = Some 1%positive ∧
  (oauth2_get_authorize_url sample.url_of
     (Some (Solitary (OfStr "a@example.org"))) None None (Some "login")
     None w1).1
  = Return "xyz?session_required_identities&prompt".
Proof. split; vm_compute; reflexivity. Qed.

Example refresh_token_overridden :
  sent (oauth2_refresh_token sample.ok "RT1"
          (Some {[ "grant_type" := VStr "other"; "x" := VInt 1 ]})
          sample.confidential).2
  = [Request POST "/v2/oauth2/token" None
       (Some {[ "refresh_token" := VStr "RT1"; "grant_type" := VStr "other";
                "x" := VInt 1 ]})
       (Some "form")].
Proof. vm_compute. reflexivity. Qed.

Example network_failure_is_raised :
  (oauth2_refresh_token sample.offline "RT1" None sample.confidential).1
  = Raise (NetworkError "unreachable").
Proof. reflexivity. Qed.

(** ** [slash_join] *)

Lemma append_cons x (a b : string) : String x a +:+ b = String x (a +:+ b).
Proof. reflexivity. Qed.

Lemma append_assoc (a b c : string) : (a +:+ b) +:+ c = a +:+ b +:+ c.
Proof.
  induction a as [|x a IH]; [ done | ]. by rewrite !append_cons, IH.
Qed.

Lemma endswith_append (a p : string) : endswith (a +:+ p) p = true.
Proof.
  induction a as [|x a IH].
  - change ("" +:+ p) with p.
    destruct p; simpl; [ done | ].
    by rewrite Ascii.eqb_refl, String.eqb_refl.
  - rewrite append_cons. simpl. rewrite IH. apply orb_true_r.
Qed.

Lemma drop_last_append_slash (a : string) : drop_last (a +:+ "/") = a.
Proof.
  induction a as [|x a IH]; [ done | ].
  destruct a as [|y a]; [ done | ].
  change (String x (String y a) +:+ "/")
    with (String x (String y a +:+ "/")).
  change (drop_last (String x (String y a +:+ "/")))
    with (String x (drop_last (String y a +:+ "/"))).
  by rewrite IH.
Qed.

Lemma endswith_cons x (s p : string) :
  endswith (String x s) p = String.eqb (String x s) p || endswith s p.
Proof. reflexivity. Qed.

Lemma drop_last_cons x y (s : string) :
  drop_last (String x (String y s)) = String x (drop_last (String y s)).
Proof. reflexivity. Qed.

(** A string that ends with a slash is its [s[:-1]] followed by the slash. *)
Lemma endswith_slash_inv (a : string) :
  endswith a "/" = true → a = drop_last a +:+ "/".
Proof.
  induction a as [|x a IH]; [ done | ].
  destruct a as [|y a].
  - simpl. rewrite orb_false_r. intros H.
    destruct (Ascii.eqb_spec x "/") as [->|]; [ done | discriminate H ].
  - intros H. rewrite endswith_cons in H.
    assert (Hne : String.eqb (String x (String y a)) "/" = false).
    { apply String.eqb_neq. discriminate. }
    rewrite Hne, orb_false_l in H.
    rewrite drop_last_cons, append_cons. f_equal. by apply IH.
Qed.

Lemma startswith_slash (b : string) : startswith ("/" +:+ b) "/" = true.
Proof.
  unfold startswith. rewrite append_cons. simpl.
  destruct (ascii_dec "/" "/"); [ by destruct b | done ].
Qed.

(** X1: for [a] without a trailing slash and a non-empty [b] without a
    leading slash, [slash_join] gives [a/b] whether or not the slash is
    already written at the end of [a], at the start of [b], or both. *)
Theorem slash_join_single_slash (a b : string) :
  endswith a "/" = false →
  startswith b "/" = false →
  b ≠ "" →
  slash_join a (Some b) = a +:+ "/" +:+ b ∧
  slash_join (a +:+ "/") (Some b) = a +:+ "/" +:+ b ∧
  slash_join a (Some ("/" +:+ b)) = a +:+ "/" +:+ b ∧
  slash_join (a +:+ "/") (Some ("/" +:+ b)) = a +:+ "/" +:+ b.
Proof.
  intros Ha Hb Hne. apply String.eqb_neq in Hne.
  unfold slash_join. rewrite Hne, Ha, Hb, endswith_append.
  change (String.eqb ("/" +:+ b) "") with false.
  rewrite startswith_slash. cbv iota.
  rewrite drop_last_append_slash.
  repeat split; try done. by rewrite append_assoc.
Qed.

Lemma slash_join_single_slash_witness :
  slash_join "https://auth.globus.org/" (Some "/v2/oauth2/authorize")
  = "https://auth.globus.org" +:+ "/" +:+ "v2/oauth2/authorize".
Proof.
  apply (slash_join_single_slash "https://auth.globus.org"
           "v2/oauth2/authorize"); [ reflexivity | reflexivity | discriminate ].
Defined.

Lemma startswith_slash_itself : startswith "/" "/" = true.
Proof. exact (startswith_slash ""). Qed.

Lemma slash_join_slash_kept (a : string) :
  endswith a "/" = true → slash_join a (Some "/") = a.
Proof.
  intros Ha. unfold slash_join.
  change (String.eqb "/" "") with false. cbv iota.
  rewrite Ha, startswith_slash_itself.
  symmetry. by apply endswith_slash_inv.
Qed.

Lemma slash_join_slash_added (a : string) :
  endswith a "/" = false → slash_join a (Some "/") = a +:+ "/".
Proof.
  intros Ha. unfold slash_join.
  change (String.eqb "/" "") with false. cbv iota.
  by rewrite Ha, startswith_slash_itself.
Qed.

(** X2: joining with ["/"] makes sure of a trailing slash: the result ends
    with a slash, a string that already ends with one is returned as it
    is, and joining again changes nothing.  Joining with [None] or [""]
    returns the first component. *)
Theorem slash_join_trailing_slash (a : string) :
  endswith (slash_join a (Some "/")) "/" = true ∧
  (endswith a "/" = true → slash_join a (Some "/") = a) ∧
  (endswith a "/" = false → slash_join a (Some "/") = a +:+ "/") ∧
  slash_join (slash_join a (Some "/")) (Some "/") = slash_join a (Some "/") ∧
  slash_join a None = a ∧ slash_join a (Some "") = a.
Proof.
  assert (Hends : endswith (slash_join a (Some "/")) "/" = true).
  { destruct (endswith a "/") eqn:Ha.
    - by rewrite slash_join_slash_kept.
    - rewrite slash_join_slash_added by done. apply endswith_append. }
  split; [ done | ].
  split; [ apply slash_join_slash_kept | ].
  split; [ apply slash_join_slash_added | ].
  split; [ by apply slash_join_slash_kept | done ].
Qed.

(** ** [render_enums_for_api] *)






(** A member whose value is a tuple is replaced by the tuple, which a
    second rendering turns into a list. *)
Example render_enums_for_api_tuple_value :
  let o := Member false (Collection false [Plain (Int 1)]) in
  render_enums_for_api o = Collection false [Plain (Int 1)] ∧
  render_enums_for_api (render_enums_for_api o)
  = Collection true [Plain (Int 1)].
Proof. split; reflexivity. Qed.

(** ** More on the optional setters *)

Section more_setters.
Context {A : Type} `{!AsVal A}.
Implicit Types (kw : kwargs A) (self : PayloadWrapper) (k : string).

Lemma set_each_order_independent (cb : A → val) :
  order_independent (set_each cb).
Proof.
  intros kw kw' self Hnd Hperm.
  assert (Hnd' : NoDup kw'.*1) by by rewrite <- Hperm.
  apply map_eq. intros k. rewrite !set_each_lookup by done.
  by rewrite (list_to_map_proper (M := gmap string) kw kw' Hnd Hperm).
Qed.

Lemma set_each_idempotent (cb : A → val) : idempotent (set_each cb).
Proof.
  intros kw self Hnd. apply map_eq. intros k.
  rewrite !set_each_lookup by done.
  by destruct (list_to_map kw !! k) as [[v|]|].
Qed.

Lemma passed_cons_Some key (v : A) kw :
  passed ((key, Some v) :: kw) = key :: passed kw.
Proof. reflexivity. Qed.

Lemma passed_cons_None key kw :
  passed ((key, None) :: kw) = passed (A := A) kw.
Proof. reflexivity. Qed.

Lemma set_each_grows_by_passed (cb : A → val) :
  grows_by_passed (set_each cb).
Proof.
  intros kw. induction kw as [|[key [v|]] kw IH]; intros self.
  - unfold passed. simpl. by rewrite (right_id_L ∅ (∪)).
  - rewrite set_each_cons, IH, passed_cons_Some.
    unfold _set_value. rewrite dom_insert_L. simpl.
    rewrite (comm_L (∪) {[key]} (dom self)).
    by rewrite (assoc_L (∪)).
  - by rewrite set_each_cons, IH, passed_cons_None.
Qed.

End more_setters.

(** X4: for each optional setter, the mapping after the call does not depend
    on the order in which the (distinct) keyword arguments were written. *)
Theorem optional_setters_order_independent :
  order_independent _set_optstrs ∧ order_independent _set_optstrlists ∧
  order_independent _set_optbools ∧ order_independent _set_optints.
Proof. repeat split; apply set_each_order_independent. Qed.

Lemma optional_setters_order_independent_witness :
  _set_optstrs [("label", Some (Str "x")); ("owner", None)] ∅
  = _set_optstrs [("owner", None); ("label", Some (Str "x"))] ∅.
Proof.
  apply (proj1 optional_setters_order_independent).
  - apply (NoDup_cons_2 "label" ["owner"]); [ | apply NoDup_singleton ].
    intros Hin. apply list_elem_of_singleton in Hin. discriminate.
  - apply perm_swap.
Defined.

(** X5: for [_set_optstrs], [_set_optbools] and [_set_optints], whose
    arguments are strings, UUIDs, numbers and booleans, a second call with
    the same (distinct) keyword arguments leaves the mapping as the first
    call made it.  ([_set_optstrlists] is left out: it iterates its
    arguments, and a one-shot iterator is used up by the first call.) *)
Theorem optional_setters_idempotent :
  idempotent _set_optstrs ∧ idempotent _set_optbools ∧
  idempotent _set_optints.
Proof. repeat split; apply set_each_idempotent. Qed.

Lemma optional_setters_idempotent_witness :
  let kw : kwargs atom := [("label", Some (Str "x")); ("owner", None)] in
  _set_optstrs kw (_set_optstrs kw ∅) = _set_optstrs kw ∅.
Proof.
  apply (proj1 optional_setters_idempotent).
  apply (NoDup_cons_2 "label" ["owner"]); [ | apply NoDup_singleton ].
  intros Hin. apply list_elem_of_singleton in Hin. discriminate.
Defined.

(** X6: an optional setter never removes a key: the keys of the mapping
    after the call are the keys it had and the keywords that were passed
    with a value. *)
Theorem optional_setters_keys :
  grows_by_passed _set_optstrs ∧ grows_by_passed _set_optstrlists ∧
  grows_by_passed _set_optbools ∧ grows_by_passed _set_optints.
Proof. repeat split; apply set_each_grows_by_passed. Qed.

(** X7: a solitary string or UUID passed to [_set_optstrlists] is stored as
    the one-element list of its string form, as if the one-member list had
    been passed; a string is not split into its characters. *)
Theorem set_optstrlists_solitary (key : string) (x : UUIDLike)
    (self : PayloadWrapper) :
  _set_optstrlists [(key, Some (Solitary x))] self
  = <[key := VList [VStr (str (UUIDLike_atom x))]]> self ∧
  _set_optstrlists [(key, Some (Solitary x))] self
  = _set_optstrlists [(key, Some (Iterable [UUIDLike_atom x]))] self.
Proof. by destruct x. Qed.

(** ** What a call leaves alone *)

Section kept.
Context {C X : Type} (part : world C → X).

Lemma kept_ret {A} (a : A) : keeps part (mret a : M C A).
Proof. by intros w. Qed.

Lemma kept_raise {A} e : keeps part (raise e : M C A).
Proof. by intros w. Qed.

Lemma kept_bind {A B} (m : M C A) (f : A → M C B) :
  keeps part m → (∀ a, keeps part (f a)) → keeps part (m ≫= f).
Proof.
  intros Hm Hf w. rewrite bind_run. specialize (Hm w).
  destruct (m w) as [[a|e|] w']; simpl in *; [ | done | done ].
  by rewrite Hf.
Qed.

Lemma kept_get_this : keeps part (get_this : M C C).
Proof. by intros w. Qed.

Lemma kept_read_dict l : keeps part (read_dict l : M C dict).
Proof. intros w. unfold read_dict. by destruct (dicts w !! l). Qed.

Lemma kept_read_manager l :
  keeps part (read_manager l : M C GlobusOAuthFlowManager).
Proof. intros w. unfold read_manager. by destruct (managers w !! l). Qed.

Lemma kept_when_not_None {A} (x : option A) (body : A → M C unit) :
  (∀ a, keeps part (body a)) → keeps part (when_not_None x body).
Proof. intros Hbody. destruct x; [ apply Hbody | apply kept_ret ]. Qed.

Lemma kept_new_dict d :
  ignores_dicts part → keeps part (new_dict d : M C loc).
Proof. intros Hpart w. apply Hpart. Qed.

Lemma kept_setitem l key v :
  ignores_dicts part → keeps part (setitem l key v : M C unit).
Proof.
  intros Hpart w. unfold setitem.
  destruct (dicts w !! l); [ apply Hpart | done ].
Qed.

Lemma kept_send tr r :
  ignores_sent part → keeps part (send tr r : M C response).
Proof. intros Hpart w. rewrite send_run. apply Hpart. Qed.

End kept.

Lemma managers_ignores_dicts {C} : ignores_dicts (managers (C := C)).
Proof. by intros w ds. Qed.

Lemma managers_ignores_sent {C} : ignores_sent (managers (C := C)).
Proof. by intros w rs. Qed.

Lemma sent_ignores_dicts {C} : ignores_dicts (sent (C := C)).
Proof. by intros w ds. Qed.

#[local] Hint Resolve kept_ret kept_raise kept_get_this kept_read_dict
  kept_read_manager kept_new_dict kept_setitem kept_send
  managers_ignores_dicts managers_ignores_sent sent_ignores_dicts : keeps.

(** Walks a method body as [keeps] does, for any component. *)
Ltac kept :=
  repeat first
    [ apply kept_bind; [ | intros ? ]
    | apply kept_when_not_None; intros ?
    | progress auto with keeps
    | case_match ].

(** ** More on the login client *)

Section more_login.
Variable tr : transport.
Variable url : GlobusOAuthFlowManager → dict → string.
Implicit Types (w : world AuthLoginClient) (d : dict).

(** X8: a newly constructed login client has no flow, so
    [oauth2_get_authorize_url] raises the usage error; once
    [oauth2_start_flow] has been called, on any client and whatever flow
    was current, [oauth2_get_authorize_url] returns the URL of the manager
    that call created, built from that call's arguments, and nothing has
    been sent. *)
Theorem authorize_url_follows_start_flow :
  (∀ cid a ds ms rs ids doms pols prompt qp, ∃ msg,
     oauth2_get_authorize_url url ids doms pols prompt qp
       (World (AuthLoginClient__init__ cid a) ds ms rs)
     = (Raise (GlobusSDKUsageError msg),
        World (AuthLoginClient__init__ cid a) ds ms rs)) ∧
  (∀ w redirect_uri scopes state refresh ids doms pols prompt,
     let w1 := (oauth2_start_flow redirect_uri scopes state refresh w).2 in
     ∃ w2,
       oauth2_get_authorize_url url ids doms pols prompt None w1
       = (Return (url (GlobusAuthorizationCodeFlowManager
                         (client_id (this w)) redirect_uri scopes state
                         refresh)
                      (authorize_params ids doms pols prompt ∅)), w2) ∧
       sent w2 = sent w ∧
       this w2 = this w1 ∧
       managers w2 = managers w1).
Proof.
  split.
  - intros. eexists. unfold oauth2_get_authorize_url.
    by rewrite bind_run.
  - intros w redirect_uri scopes state refresh ids doms pols prompt w1.
    unfold w1. rewrite oauth2_start_flow_run. cbn [snd]. eexists.
    split.
    { apply (oauth2_get_authorize_url_fresh url _ (fresh (dom (managers w)))).
      - done.
      - cbn [managers]. apply lookup_insert_eq. }
    done.
Qed.

(** X9: for every client and every [body_params], [oauth2_validate_token]
    and [oauth2_revoke_token] post the same body to their two paths; the
    body always has a [token] entry, the token given unless [body_params]
    has its own, and every entry of [body_params] is in the body as the
    caller gave it. *)
Theorem validate_and_revoke_post_the_same_body token
    (body_params : option dict) w :
  ∃ body : dict,
    oauth2_validate_token tr token body_params w
    = post tr "/v2/oauth2/token/validate" (Some body) (Some "form") w ∧
    oauth2_revoke_token tr token body_params w
    = post tr "/v2/oauth2/token/revoke" (Some body) (Some "form") w ∧
    is_Some (body !! "token") ∧
    (default ∅ body_params !! "token" = None →
     body !! "token" = Some (VStr token)) ∧
    (∀ k v, default ∅ body_params !! k = Some v → body !! k = Some v).
Proof.
  eexists. split; [ apply oauth2_validate_token_run | ].
  split; [ apply oauth2_revoke_token_run | ].
  assert (Htoken :
            (if is_optional (authorizer (this w)) isinstance_NullAuthorizer
                && has_client_id (this w)
             then update {[ "token" := VStr token ]}
                         {[ "client_id" := as_val (client_id (this w)) ]}
             else {[ "token" := VStr token ]} : dict) !! "token"
            = Some (VStr token)).
  { case_match.
    - rewrite update_lookup, lookup_singleton_eq.
      by rewrite (lookup_singleton_ne "client_id" "token").
    - by rewrite lookup_singleton_eq. }
  split; [ | split ].
  - rewrite update_lookup, Htoken.
    by destruct (default ∅ body_params !! "token").
  - intros Hnone. by rewrite update_lookup, Hnone, Htoken.
  - intros k v Hk. by rewrite update_lookup, Hk.
Qed.

(** X10: the entries of [body_params] reach the token endpoint the same
    way whether they are passed to [oauth2_token] or merged into the form
    data beforehand, and an empty [body_params] is the same as none. *)
Theorem oauth2_token_merges_body_params (form_data : dict)
    (body_params : option dict) cls w :
  oauth2_token tr form_data body_params cls w
  = oauth2_token tr (update form_data (default ∅ body_params)) None cls w ∧
  oauth2_token tr form_data (Some ∅) cls w
  = oauth2_token tr form_data None cls w.
Proof.
  rewrite !oauth2_token_run. simpl. by rewrite !update_empty.
Qed.

(** X11: [additional_params] are applied last in
    [oauth2_get_dependent_tokens]: each of their entries is in the posted
    form as given, also under [grant_type], [token] and [access_type], and
    every other key is as the method computed it, with [access_type]
    present exactly when [refresh_tokens] is true. *)
Theorem dependent_tokens_additional_params token (refresh_tokens : bool)
    (additional_params : option dict) w :
  ∃ body : dict,
    let r := Request POST "/v2/oauth2/token" None (Some body) (Some "form") in
    oauth2_get_dependent_tokens tr token refresh_tokens additional_params w
    = (answer OAuthDependentTokenResponse (tr (sent w) r),
       with_request w r) ∧
    (∀ k v, default ∅ additional_params !! k = Some v →
            body !! k = Some v) ∧
    (∀ k, default ∅ additional_params !! k = None →
          body !! k = dependent_form token refresh_tokens !! k) ∧
    dependent_form token refresh_tokens !! "access_type"
    = (if refresh_tokens then Some (VStr "offline") else None).
Proof.
  eexists. cbv zeta. split.
  { unfold oauth2_get_dependent_tokens. rewrite oauth2_token_run.
    rewrite update_if_truthy. simpl. rewrite update_empty. reflexivity. }
  split; [ | split ].
  - intros k v Hk. by rewrite update_lookup, Hk.
  - intros k Hk. rewrite update_lookup, Hk. simpl.
    by destruct refresh_tokens.
  - by destruct refresh_tokens.
Qed.

(** X12: [oauth2_token_introspect] posts the token and, exactly when
    [include] is given, the [include] entry, and nothing else: unlike
    validation and revocation it never sends [client_id], whatever the
    client's authorizer. *)
Theorem token_introspect_body token (include : option string) w :
  ∃ body : dict,
    oauth2_token_introspect tr token include w
    = post tr "/v2/oauth2/token/introspect" (Some body) (Some "form") w ∧
    body !! "token" = Some (VStr token) ∧
    body !! "include" = VStr <$> include ∧
    (∀ k, k ≠ "token" → k ≠ "include" → body !! k = None) ∧
    body !! "client_id" = None.
Proof.
  eexists. split; [ reflexivity | ].
  destruct include as [i|]; simpl.
  - repeat split; try done. intros k Hk1 Hk2. by simplify_map_eq.
  - repeat split; try done. intros k Hk1 Hk2. by simplify_map_eq.
Qed.

End more_login.

(** ** What a call on the login client does to the world *)

Section calls.
Variable tr : transport.
Variable url : GlobusOAuthFlowManager → dict → string.
Implicit Types (w : world AuthLoginClient) (d : dict).

Lemma oauth2_get_authorize_url_keeps_managers ids doms pols prompt qp :
  keeps managers (oauth2_get_authorize_url url ids doms pols prompt qp).
Proof. unfold oauth2_get_authorize_url. kept. Qed.

Lemma oauth2_get_authorize_url_keeps_sent ids doms pols prompt qp :
  keeps sent (oauth2_get_authorize_url url ids doms pols prompt qp).
Proof. unfold oauth2_get_authorize_url. kept. Qed.

Lemma post_run path (data : option dict) encoding w :
  post tr path data encoding w
  = (answer GlobusHTTPResponse
       (tr (sent w) (Request POST path None data encoding)),
     with_request w (Request POST path None data encoding)).
Proof. unfold post. apply send_run. Qed.

(** What [oauth2_exchange_code_for_tokens] does to the world: nothing, or
    one request more. *)
Lemma oauth2_exchange_code_for_tokens_world code w :
  (oauth2_exchange_code_for_tokens tr code w).2 = w ∨
  ∃ r, (oauth2_exchange_code_for_tokens tr code w).2 = with_request w r.
Proof.
  unfold oauth2_exchange_code_for_tokens. rewrite bind_run. simpl.
  destruct (current_oauth2_flow_manager (this w)) as [l|]; [ | by left ].
  rewrite bind_run. unfold read_manager.
  destruct (managers w !! l) as [m|]; [ | by left ].
  right. destruct m; simpl; rewrite oauth2_token_run; by eexists.
Qed.

(** Every call but [oauth2_start_flow] leaves the client and the managers
    as they were and sends at most one request. *)
Lemma perform_other c w :
  (∀ uri scopes state refresh, c ≠ Start_flow uri scopes state refresh) →
  this (perform tr url c w) = this w ∧
  managers (perform tr url c w) = managers w ∧
  at_most_one_more w (perform tr url c w).
Proof.
  intros Hc. unfold at_most_one_more. destruct c; unfold perform.
  - rewrite (keeps_oauth2_get_authorize_url url _ _ _ _ _ w).
    rewrite (oauth2_get_authorize_url_keeps_managers _ _ _ _ _ w).
    rewrite (oauth2_get_authorize_url_keeps_sent _ _ _ _ _ w).
    by repeat split; [ left ].
  - destruct (oauth2_exchange_code_for_tokens_world auth_code w)
      as [->|[r ->]]; repeat split; [ by left | right; by eexists ].
  - unfold oauth2_refresh_token. rewrite oauth2_token_run.
    repeat split. right. by eexists.
  - rewrite oauth2_validate_token_run, post_run.
    repeat split. right. by eexists.
  - rewrite oauth2_revoke_token_run, post_run.
    repeat split. right. by eexists.
  - unfold oauth2_userinfo, get. rewrite send_run.
    repeat split. right. by eexists.
  - unfold oauth2_client_credentials_tokens. rewrite oauth2_token_run.
    repeat split. right. by eexists.
  - by destruct (Hc redirect_uri requested_scopes state refresh_tokens).
  - unfold oauth2_get_dependent_tokens. rewrite oauth2_token_run.
    repeat split. right. by eexists.
  - unfold oauth2_token_introspect. rewrite post_run.
    repeat split. right. by eexists.
Qed.

(** X13: a call of any method sends at most one request, after the
    requests sent before, which stay as they were;
    [oauth2_get_authorize_url] and [oauth2_start_flow] send none. *)
Theorem a_call_sends_at_most_one_request c w :
  at_most_one_more w (perform tr url c w) ∧
  (∀ ids doms pols prompt qp,
     c = Get_authorize_url ids doms pols prompt qp →
     sent (perform tr url c w) = sent w) ∧
  (∀ uri scopes state refresh,
     c = Start_flow uri scopes state refresh →
     sent (perform tr url c w) = sent w).
Proof.
  split; [ | split ].
  - destruct c;
      try (apply perform_other; intros; discriminate).
    left. unfold perform. by rewrite oauth2_start_flow_run.
  - intros ids doms pols prompt qp ->. unfold perform.
    apply oauth2_get_authorize_url_keeps_sent.
  - intros uri scopes state refresh ->. unfold perform.
    by rewrite oauth2_start_flow_run.
Qed.

Lemma call_cases c :
  (∃ uri scopes state refresh, c = Start_flow uri scopes state refresh) ∨
  (∀ uri scopes state refresh, c ≠ Start_flow uri scopes state refresh).
Proof. destruct c; try (by right); left; by eexists _, _, _, _. Qed.

Lemma perform_flow_allocated c w :
  flow_allocated w → flow_allocated (perform tr url c w).
Proof.
  intros Hw.
  destruct (call_cases c) as [(uri & scopes & state & refresh & ->)|Hc].
  - unfold perform. rewrite oauth2_start_flow_run. cbn [snd].
    intros l. cbn. intros [= <-]. rewrite lookup_insert_eq. by eexists.
  - destruct (perform_other c w Hc) as (Hthis & Hms & _).
    unfold flow_allocated. by rewrite Hthis, Hms.
Qed.

(** X14: no call unsets or invalidates the current flow: a client that has
    a current flow still has one after any call, and a current flow that is
    a manager in the store still is one.  So from the construction of a
    confidential client on, the current flow, if any, is always a manager
    in the store, and [oauth2_get_authorize_url] called without
    [query_params] either raises or returns. *)
Theorem current_flow_stays_allocated :
  (∀ c w, is_Some (current_oauth2_flow_manager (this w)) →
          is_Some (current_oauth2_flow_manager (this (perform tr url c w)))) ∧
  (∀ c w, flow_allocated w → flow_allocated (perform tr url c w)) ∧
  (∀ cid secret w,
     confidential_client tr url cid secret w →
     flow_allocated w ∧
     ∀ ids doms pols prompt,
       (oauth2_get_authorize_url url ids doms pols prompt None w).1
       ≠ Dangling).
Proof.
  split; [ | split ].
  - intros c w Hsome.
    destruct (call_cases c) as [(uri & scopes & state & refresh & ->)|Hc].
    + unfold perform. rewrite oauth2_start_flow_run. by eexists.
    + by destruct (perform_other c w Hc) as (-> & _).
  - apply perform_flow_allocated.
  - intros cid secret w Hw.
    assert (Halloc : flow_allocated w).
    { induction Hw as [ds ms rs | c w _ IH | ds w _ IH].
      - intros l [=].
      - by apply perform_flow_allocated.
      - exact IH. }
    split; [ done | ].
    intros ids doms pols prompt.
    destruct (current_oauth2_flow_manager (this w)) as [l|] eqn:Hslot.
    + destruct (Halloc l Hslot) as [m Hm].
      by rewrite (oauth2_get_authorize_url_fresh url w l m).
    + unfold oauth2_get_authorize_url. rewrite bind_run. simpl.
      by rewrite Hslot.
Qed.

End calls.

Lemma current_flow_stays_allocated_witness :
  flow_allocated sample.started ∧
  flow_allocated
    (perform sample.ok sample.url_of (Refresh_token "RT1" None)
             sample.started).
Proof.
  assert (Hw : flow_allocated sample.started).
  { intros l [= <-]. by eexists. }
  split; [ exact Hw | ].
  exact (proj1 (proj2 (current_flow_stays_allocated sample.ok
                         sample.url_of))
               (Refresh_token "RT1" None) sample.started Hw).
Defined.

(** ** More on the flows listings *)

Section more_flows.
Variable tr : transport.
Implicit Types (w : world FlowsClient) (d : dict) (q : loc).

Lemma read_dict_run w q d :
  dicts w !! q = Some d → read_dict q w = (Return d, w).
Proof. intros Hq. unfold read_dict. by rewrite Hq. Qed.

Lemma list_flows_supplied filter_role filter_fulltext orderby marker w q d0 :
  dicts w !! q = Some d0 →
  let d := list_flows_params filter_role filter_fulltext orderby marker d0 in
  let r := Request GET "/flows" (Some d) None None in
  list_flows tr filter_role filter_fulltext orderby marker (Some q) w
  = (answer IterableFlowsResponse (tr (sent w) r),
     with_request (with_dict w q d) r).
Proof.
  intros Hq d r. unfold list_flows.
  rewrite bind_run. cbn [mret M_ret].
  rewrite <- (with_dict_id w q d0) at 1 by done.
  do 2 rewrite bind_run, when_setitem_with_dict.
  rewrite bind_run, when_orderby_with_dict.
  rewrite bind_run, when_setitem_with_dict.
  rewrite bind_run, read_dict_with_dict.
  rewrite bind_run. unfold get. rewrite send_run.
  subst d r. unfold answer. by destruct (tr _ _).
Qed.

Lemma list_runs_supplied filter_flow_id marker w q d0 :
  dicts w !! q = Some d0 →
  let d := list_runs_params filter_flow_id marker d0 in
  let r := Request GET "/runs" (Some d) None None in
  list_runs tr filter_flow_id marker (Some q) w
  = (answer IterableRunsResponse (tr (sent w) r),
     with_request (with_dict w q d) r).
Proof.
  intros Hq d r. unfold list_runs.
  rewrite bind_run. cbn [mret M_ret].
  rewrite <- (with_dict_id w q d0) at 1 by done.
  rewrite bind_run,
    (when_setitem_with_dict filter_flow_id
       (λ v, VStr (join "," (safe_strseq_iter v)))).
  rewrite bind_run, when_setitem_with_dict.
  rewrite bind_run, read_dict_with_dict.
  rewrite bind_run. unfold get. rewrite send_run.
  subst d r. unfold answer. by destruct (tr _ _).
Qed.

(** X15: [list_flows] and [list_runs] fill the dict the caller supplies as
    [query_params], in place, and send it: the [marker] argument replaces a
    [marker] entry of that dict, an entry that is sent as it is when the
    argument is [None]; the keys the method has no argument for are left as
    the caller set them. *)
Theorem listings_fill_supplied_dict w q d0 (marker : option string) :
  dicts w !! q = Some d0 →
  (∀ filter_role filter_fulltext orderby, ∃ d w',
     let r := Request GET "/flows" (Some d) None None in
     list_flows tr filter_role filter_fulltext orderby marker (Some q) w
     = (answer IterableFlowsResponse (tr (sent w) r), w') ∧
     dicts w' = <[q := d]> (dicts w) ∧
     sent w' = (sent w ++ [r])%list ∧
     d !! "marker" = from_option (Some ∘ VStr) (d0 !! "marker") marker ∧
     (∀ k, k ∉ ["filter_role"; "filter_fulltext"; "orderby"; "marker"] →
           d !! k = d0 !! k)) ∧
  (∀ filter_flow_id, ∃ d w',
     let r := Request GET "/runs" (Some d) None None in
     list_runs tr filter_flow_id marker (Some q) w
     = (answer IterableRunsResponse (tr (sent w) r), w') ∧
     dicts w' = <[q := d]> (dicts w) ∧
     sent w' = (sent w ++ [r])%list ∧
     d !! "marker" = from_option (Some ∘ VStr) (d0 !! "marker") marker ∧
     (∀ k, k ∉ ["filter_flow_id"; "marker"] → d !! k = d0 !! k)).
Proof.
  intros Hq. split.
  - intros. eexists _, _. cbv zeta.
    split; [ by apply list_flows_supplied | ].
    split; [ done | ]. split; [ done | ].
    unfold list_flows_params. split.
    + rewrite set_opt_lookup. case_decide; [ | done ].
      destruct marker; [ done | ]. simpl. rewrite !set_opt_lookup.
      repeat (case_decide; [ done | ]). done.
    + intros k Hk. rewrite !set_opt_lookup.
      repeat case_decide; subst; try done; exfalso; apply Hk; set_solver.
  - intros. eexists _, _. cbv zeta.
    split; [ by apply list_runs_supplied | ].
    split; [ done | ]. split; [ done | ].
    unfold list_runs_params. split.
    + rewrite set_opt_lookup. case_decide; [ | done ].
      destruct marker; [ done | ]. simpl. rewrite !set_opt_lookup.
      repeat (case_decide; [ done | ]). done.
    + intros k Hk. rewrite !set_opt_lookup.
      repeat case_decide; subst; try done; exfalso; apply Hk; set_solver.
Qed.

Lemma get_run_logs_supplied run_id limit reverse_order marker w q extra :
  dicts w !! q = Some extra →
  let d : dict :=
    filter (λ kv, is_None kv.2 = false)
           (run_logs_params limit reverse_order marker extra) in
  let r := Request GET ("/runs/" +:+ str (UUIDLike_atom run_id) +:+ "/log")
             (Some d) None None in
  get_run_logs tr run_id limit reverse_order marker (Some q) w
  = (answer IterableRunLogsResponse (tr (sent w) r), with_request w r).
Proof.
  intros Hq d r. unfold get_run_logs.
  rewrite bind_run, (read_dict_run w q extra Hq).
  rewrite bind_run. unfold get. rewrite send_run.
  subst d r. unfold run_logs_params, answer. by destruct (tr _ _).
Qed.

(** X16: [get_run_logs] only reads the dict supplied as [query_params] and
    gives its entries precedence over the arguments: an entry of the dict
    is sent as it is, also under [marker], [limit] and [reverse_order], and
    an entry whose value is [None] removes the key from the request even
    when the argument of that name was given; no value sent is [None]. *)
Theorem run_logs_query_params_take_precedence w q extra run_id limit
    reverse_order marker :
  dicts w !! q = Some extra →
  ∃ qp w',
    let r := Request GET
               ("/runs/" +:+ str (UUIDLike_atom run_id) +:+ "/log")
               (Some qp) None None in
    get_run_logs tr run_id limit reverse_order marker (Some q) w
    = (answer IterableRunLogsResponse (tr (sent w) r), w') ∧
    dicts w' = dicts w ∧
    sent w' = (sent w ++ [r])%list ∧
    (∀ k v, qp !! k = Some v → v ≠ VNone) ∧
    (∀ k v, extra !! k = Some v → v ≠ VNone → qp !! k = Some v) ∧
    (∀ k, extra !! k = Some VNone → qp !! k = None) ∧
    (extra !! "marker" = None → qp !! "marker" = VStr <$> marker).
Proof.
  intros Hq. eexists _, _. cbv zeta.
  split; [ by apply get_run_logs_supplied | ].
  split; [ done | ]. split; [ done | ].
  unfold run_logs_params. split; [ | split; [ | split ] ].
  - intros k v Hk ->. by apply map_lookup_filter_Some_1_2 in Hk.
  - intros k v Hk Hv. apply map_lookup_filter_Some_2.
    + by rewrite update_lookup, Hk.
    + by destruct v.
  - intros k Hk. apply map_lookup_filter_None_2. right.
    intros v. rewrite update_lookup, Hk. simpl. by intros [= <-].
  - intros Hk. destruct marker as [m|]; simpl.
    + apply map_lookup_filter_Some_2; [ | done ].
      rewrite update_lookup, Hk. by simplify_map_eq.
    + apply map_lookup_filter_None_2. right. intros v.
      rewrite update_lookup, Hk. simpl. intros Hv.
      by simplify_map_eq.
Qed.

End more_flows.

Lemma listings_fill_supplied_dict_witness :
  ∃ d w',
    list_flows sample.ok None None None (Some "m2") (Some 1%positive)
      (World TheFlowsClient
             {[ 1%positive := {[ "marker" := VStr "m1"; "x" := VInt 1 ]} ]}
             ∅ [])
    = (answer IterableFlowsResponse
         (sample.ok [] (Request GET "/flows" (Some d) None None)), w') ∧
    d !! "marker" = Some (VStr "m2") ∧
    dicts w' !! 1%positive = Some d.
Proof.
  destruct (proj1 (listings_fill_supplied_dict sample.ok
                     (World TheFlowsClient
                        {[ 1%positive := {[ "marker" := VStr "m1";
                                            "x" := VInt 1 ]} ]} ∅ [])
                     1%positive
                     {[ "marker" := VStr "m1"; "x" := VInt 1 ]}
                     (Some "m2") (lookup_singleton_eq _ _)) None None None)
    as (d & w' & Hrun & Hdicts & _ & Hmarker & _).
  exists d, w'. split; [ exact Hrun | ]. split; [ exact Hmarker | ].
  rewrite Hdicts. apply lookup_insert_eq.
Defined.

Lemma run_logs_query_params_take_precedence_witness :
  ∃ qp w',
    get_run_logs sample.ok (OfStr "RUN1") (Some 5%Z) None (Some "m2")
      (Some 1%positive)
      (World TheFlowsClient
             {[ 1%positive := {[ "marker" := VStr "m1"; "limit" := VNone ]} ]}
             ∅ [])
    = (answer IterableRunLogsResponse
         (sample.ok [] (Request GET "/runs/RUN1/log" (Some qp) None None)),
       w') ∧
    qp !! "marker" = Some (VStr "m1") ∧
    qp !! "limit" = None.
Proof.
  destruct (run_logs_query_params_take_precedence sample.ok
              (World TheFlowsClient
                 {[ 1%positive := {[ "marker" := VStr "m1";
                                     "limit" := VNone ]} ]} ∅ [])
              1%positive {[ "marker" := VStr "m1"; "limit" := VNone ]}
              (OfStr "RUN1") (Some 5%Z) None (Some "m2")
              (lookup_singleton_eq _ _))
    as (qp & w' & Hrun & _ & _ & _ & Hkept & Hnone & _).
  exists qp, w'. split; [ exact Hrun | ]. split.
  - apply Hkept; [ by simplify_map_eq | discriminate ].
  - apply Hnone. by simplify_map_eq.
Defined.

Section more_runs.
Variable tr : transport.
Implicit Types (w : world FlowsClient) (d : dict) (q : loc).

Lemma get_run_with_dict run_id include w q d :
  let d' := set_opt "include_flow_description" (VBool <$> include) d in
  let r := Request GET ("/runs/" +:+ str (UUIDLike_atom run_id)) (Some d')
             None None in
  (when_not_None include (λ v,
     setitem q "include_flow_description" (VBool v));;
   qp ← read_dict q;
   get tr ("/runs/" +:+ str (UUIDLike_atom run_id)) (Some qp))
    (with_dict w q d)
  = (answer GlobusHTTPResponse (tr (sent w) r),
     with_request (with_dict w q d') r).
Proof.
  intros d' r.
  rewrite bind_run, when_setitem_with_dict.
  rewrite bind_run, read_dict_with_dict.
  unfold get. by rewrite send_run.
Qed.

(** X17: [get_run] replaces an empty [query_params] dict by a new one, so
    an empty dict the caller supplies is never modified, while a dict with
    entries is filled in place; in both cases the request carries the
    caller's entries and, when the argument is not [None],
    [include_flow_description]. *)
Theorem get_run_spares_an_empty_dict w q d0 run_id
    (include : option bool) :
  dicts w !! q = Some d0 →
  let d := set_opt "include_flow_description" (VBool <$> include) d0 in
  let r := Request GET ("/runs/" +:+ str (UUIDLike_atom run_id)) (Some d)
             None None in
  ∃ w',
    get_run tr run_id include (Some q) w
    = (answer GlobusHTTPResponse (tr (sent w) r), w') ∧
    sent w' = (sent w ++ [r])%list ∧
    (d0 = ∅ → dicts w' !! q = Some ∅) ∧
    (d0 ≠ ∅ → dicts w' = <[q := d]> (dicts w)).
Proof.
  intros Hq d r. unfold get_run.
  rewrite bind_run, bind_run, (read_dict_run w q d0 Hq).
  unfold truthy. case_bool_decide as Hd0; cbn [negb].
  - subst d0. rewrite new_dict_run, get_run_with_dict.
    eexists. split; [ reflexivity | ]. split; [ done | ].
    split; [ | done ]. intros _. cbn.
    rewrite lookup_insert_ne; [ done | ].
    intros Heq. pose proof (fresh_dict_unused w) as Hfresh.
    rewrite Heq, Hq in Hfresh. discriminate.
  - cbn [mret M_ret]. eexists. split.
    { rewrite <- (with_dict_id w q d0) at 1 by done.
      apply get_run_with_dict. }
    split; [ done | ]. split; done.
Qed.

(** X18: [commajoin] is the comma-join of what [safe_strseq_iter] yields
    for every argument, also for the solitary UUID that it stringifies
    directly; so [list_runs], which joins [safe_strseq_iter] itself, sends
    [filter_flow_id] as [commajoin] would have normalized it. *)
Theorem list_runs_filter_is_commajoin :
  (∀ val, commajoin val = join "," (safe_strseq_iter val)) ∧
  (∀ w filter_flow_id marker, ∃ qp w',
     let r := Request GET "/runs" (Some qp) None None in
     list_runs tr (Some filter_flow_id) marker None w
     = (answer IterableRunsResponse (tr (sent w) r), w') ∧
     qp !! "filter_flow_id" = Some (VStr (commajoin filter_flow_id))).
Proof.
  assert (Hjoin : ∀ val, commajoin val = join "," (safe_strseq_iter val)).
  { by intros [[s|u]|xs]. }
  split; [ done | ].
  intros w filter_flow_id marker. eexists _, _. cbv zeta.
  split; [ apply list_runs_fresh | ].
  unfold list_runs_params. rewrite set_opt_lookup.
  case_decide; [ done | ]. simpl.
  by rewrite lookup_insert_eq, Hjoin.
Qed.

End more_runs.

Lemma get_run_spares_an_empty_dict_witness :
  ∃ w',
    get_run sample.ok (OfStr "RUN1") (Some true) (Some 1%positive)
      (World TheFlowsClient {[ 1%positive := ∅ ]} ∅ [])
    = (answer GlobusHTTPResponse
         (sample.ok []
            (Request GET "/runs/RUN1"
               (Some {[ "include_flow_description" := VBool true ]})
               None None)), w') ∧
    dicts w' !! 1%positive = Some ∅.
Proof.
  destruct (get_run_spares_an_empty_dict sample.ok
              (World TheFlowsClient {[ 1%positive := ∅ ]} ∅ [])
              1%positive ∅ (OfStr "RUN1") (Some true)
              (lookup_singleton_eq _ _))
    as (w' & Hrun & _ & Hempty & _).
  exists w'. split; [ exact Hrun | ]. by apply Hempty.
Defined.
